(** * MsczReader: a shallow embedding of src/engraving/io/msczreader.cpp

    The reader gives path-addressed and role-addressed read access to a
    score container that is stored either as a zip archive behind a
    QIODevice ([Zip] mode) or as a plain directory tree ([Dir] mode).

    The C++ object is a record; every member function is a function on
    the record and on a [World] that holds what the reader talks to: the
    heap of QIODevice objects, the file system, and the trace of log lines
    and backend calls.  A member function that dereferences a null or
    deleted device pointer has no defined result; it returns [None]. *)

From Stdlib Require Import String Ascii List Bool Arith Lia.
From stdpp Require Import base option strings gmap.
Import ListNotations.

(* stdpp freezes [String.append] under [simpl]; the lemmas on paths below
   compute with it. *)
#[local] Arguments String.append !s1 s2 : simpl nomatch.

(** ** QString operations used by the reader *)

Module QStr.

(** [QString::mid(pos)]: the part of the string from position [pos] on;
    empty when [pos] is past the end. *)
Fixpoint mid (pos : nat) (s : string) : string :=
  match pos, s with
  | O, _ => s
  | S _, EmptyString => EmptyString
  | S n, String _ t => mid n t
  end.

(** [QString::startsWith]. *)
Fixpoint startsWith (p s : string) : bool :=
  match p, s with
  | EmptyString, _ => true
  | String _ _, EmptyString => false
  | String a p', String b s' => Ascii.eqb a b && startsWith p' s'
  end.

(** [QString::endsWith]: some tail of [s] is [suf]. *)
Fixpoint endsWith (suf s : string) : bool :=
  String.eqb suf s ||
  match s with
  | EmptyString => false
  | String _ t => endsWith suf t
  end.

(** The path separator. *)
Definition sep : ascii := "/"%char.

Fixpoint hasSep (s : string) : bool :=
  match s with
  | EmptyString => false
  | String c t => Ascii.eqb c sep || hasSep t
  end.

(** Text after the last separator (all of [s] when there is none). *)
Fixpoint afterLastSep (s : string) : string :=
  match s with
  | EmptyString => EmptyString
  | String c t =>
      if hasSep t then afterLastSep t
      else if Ascii.eqb c sep then t else s
  end.

(** Text before the last separator (empty when there is none, or when the
    only separator is the first character). *)
Fixpoint beforeLastSep (s : string) : string :=
  match s with
  | EmptyString => EmptyString
  | String c t =>
      if hasSep t then String c (beforeLastSep t) else EmptyString
  end.

(** A run of separators counts as one: the file system's view of a path. *)
Fixpoint collapseSep (s : string) : string :=
  match s with
  | EmptyString => EmptyString
  | String c t =>
      match t with
      | String d _ =>
          if Ascii.eqb c sep && Ascii.eqb d sep then collapseSep t
          else String c (collapseSep t)
      | EmptyString => String c EmptyString
      end
  end.

(** "." and "..", the two names that are not names of entries. *)
Definition isDot (s : string) : bool := String.eqb s "." || String.eqb s "..".

(** No component of the path [cur] followed by [s] is "." or "..";
    [cur] is the part of the current component that was already read. *)
Fixpoint plainFrom (cur s : string) : bool :=
  match s with
  | EmptyString => negb (isDot cur)
  | String c t =>
      if Ascii.eqb c sep then negb (isDot cur) && plainFrom EmptyString t
      else plainFrom (cur +:+ String c EmptyString) t
  end.

Definition plain (s : string) : bool := plainFrom EmptyString s.

End QStr.

Import QStr.

(** ** Data model *)

Definition QByteArray : Type := list Byte.byte.

(** [MsczReader::Mode]. *)
Inductive Mode : Type := Zip | Dir.

Definition Mode_eqb (a b : Mode) : bool :=
  match a, b with
  | Zip, Zip | Dir, Dir => true
  | _, _ => false
  end.

(** [MsczReader::Meta]: the two fields that [meta()] fills. *)
Record Meta : Type := mkMeta {
  mscxFileName : string;
  imageFilePaths : list string
}.

(** A default-constructed [Meta]. *)
Definition Meta_default : Meta := mkMeta "" [].

(** Modelled from the spec: [Meta::isValid] is declared in msczreader.h,
    which is not among the sources.  The spec's data model reads: true once
    a primary-document path or at least one classified path has been
    recorded.  The reader itself is defined over an arbitrary [isValid]
    (see [Section Reader]); this one instantiates it in examples. *)
Definition Meta_isValid (m : Meta) : bool :=
  negb (String.eqb (mscxFileName m) "") ||
  negb (Nat.eqb (List.length (imageFilePaths m)) 0).

(** *** The archive backend *)

Module MQZipReader.

(** Modelled from the spec: the declarations of MQZipReader
    (thirdparty/qzip/qzipreader_p.h) are not among the sources.  Of its
    status the reader only tells [NoError] from the rest. *)
Inductive Status : Type := NoError | Error (code : nat).

Definition Status_eqb (a b : Status) : bool :=
  match a, b with
  | NoError, NoError => true
  | Error x, Error y => Nat.eqb x y
  | _, _ => false
  end.

Definition Status_text (s : Status) : string :=
  match s with
  | NoError => "0"
  | Error _ => "error"
  end.

(** Modelled from the spec: [MQZipReader::FileInfo], of which the backend
    contract names the path and the is-file flag, the two fields the
    reader looks at. *)
Record FileInfo : Type := mkFileInfo {
  filePath : string;
  isFile : bool
}.

Record Entry : Type := mkEntry {
  info : FileInfo;
  data : QByteArray
}.

(** What the backend finds in the bytes of a device: a status and the
    entries in the order the backend lists them. *)
Record Image : Type := mkImage {
  status : Status;
  entries : list Entry
}.

(** The handle: it remembers the device it was constructed over. *)
Record t : Type := mk { device : option nat }.

(** Extraction is by exact path; the first entry of that path is taken. *)
Definition lookupEntry (name : string) (es : list Entry) : option Entry :=
  List.find (fun e => String.eqb (filePath (info e)) name) es.

End MQZipReader.

(** *** Devices *)

(** A [QIODevice] of Qt, as far as the reader uses one: whether it is
    open, whether opening it for reading succeeds, and what the archive
    backend finds in its bytes. *)
Record QIODevice : Type := mkDevice {
  dev_isOpen : bool;
  dev_canOpen : bool;
  dev_image : MQZipReader.Image
}.

(** *** The file system *)

(** The file system as Qt shows it to the reader through [QFileInfo],
    [QDirIterator] and [QFile].  There are no links between
    directories. *)
Module Fs.

Record File : Type := mkFile {
  path : string;
  symlink : bool;
  readable : bool;
  content : QByteArray
}.

(** Absolute paths of the directories and of the files, the files in the
    order a directory traversal meets them. *)
Record t : Type := mk {
  cwd : string;
  dirs : list string;
  files : list File
}.

(** A directory name as the prefix of what lies in it. *)
Definition dirPrefix (root : string) : string :=
  if endsWith "/" root then root else root +:+ "/".

(** [QFileInfo(p).absolutePath()]: the absolute name of [p] without its
    last component; "/" for an entry of the root directory. *)
Definition absolutePath (fs : t) (p : string) : string :=
  let abs := if startsWith "/" p then p else dirPrefix (cwd fs) +:+ p in
  let d := beforeLastSep abs in
  if String.eqb d "" then "/" else d.

(** A path below the traversal root is hidden when one of its components
    starts with a dot. *)
Fixpoint hiddenFrom (atStart : bool) (s : string) : bool :=
  match s with
  | EmptyString => false
  | String c t =>
      (atStart && Ascii.eqb c "."%char) || hiddenFrom (Ascii.eqb c sep) t
  end.

Definition hidden (rel : string) : bool := hiddenFrom true rel.

(** [QDirIterator(root, {}, NoDotAndDotDot | NoSymLinks | Readable | Files,
    Subdirectories)]: the full paths of the regular, readable, not hidden
    files below [root]. *)
Definition listed (root : string) (f : File) : bool :=
  startsWith (dirPrefix root) (path f) &&
  negb (symlink f) && readable f &&
  negb (hidden (mid (String.length (dirPrefix root)) (path f))).

Definition dirIterator (fs : t) (root : string) : list string :=
  List.map path (List.filter (listed root) (files fs)).

(** [QFileInfo::exists]. *)
Definition exists_ (fs : t) (p : string) : bool :=
  List.existsb (String.eqb (collapseSep p)) (dirs fs) ||
  List.existsb (fun f => String.eqb (path f) (collapseSep p)) (files fs).

(** The absolute name made of the components [st]. *)
Definition joined (st : list string) : string :=
  List.fold_right (fun n acc => "/" +:+ n +:+ acc) "" st.

Definition render (st : list string) : string :=
  match st with
  | [] => "/"
  | _ => joined st
  end.

(** The components [st] lead to a directory: the root, a directory of
    [dirs], or a place that some file lies below. *)
Definition isDir (fs : t) (st : list string) : bool :=
  match st with
  | [] => true
  | _ =>
      List.existsb (String.eqb (joined st)) (dirs fs) ||
      List.existsb (fun f => startsWith (joined st +:+ "/") (path f)) (files fs)
  end.

(** One component of a path, seen from the directory [st]: an empty
    component and "." stay there, ".." goes up (the root is its own
    parent), a name goes down.  "." and ".." need [st] to be a
    directory. *)
Definition enter (fs : t) (st : list string) (cur : string) : option (list string) :=
  if String.eqb cur "" then Some st
  else if String.eqb cur "." then (if isDir fs st then Some st else None)
  else if String.eqb cur ".." then (if isDir fs st then Some (List.removelast st) else None)
  else Some (st ++ [cur]).

Fixpoint walk (fs : t) (st : list string) (cur s : string) : option (list string) :=
  match s with
  | EmptyString => enter fs st cur
  | String c t =>
      if Ascii.eqb c sep then
        match enter fs st cur with
        | Some st' => walk fs st' EmptyString t
        | None => None
        end
      else walk fs st (cur +:+ String c EmptyString) t
  end.

(** The place a name leads to, as the file system resolves it: runs of
    separators count as one, "." and ".." are followed, a relative name
    starts at the working directory. *)
Definition resolve (fs : t) (p : string) : option string :=
  let abs := if startsWith "/" p then p else dirPrefix (cwd fs) +:+ p in
  option_map render (walk fs [] EmptyString abs).

(** [QFile(p).open(ReadOnly)] followed by [readAll()]: [None] when the
    open fails.  A name with a trailing separator never opens as a file. *)
Definition readAll (fs : t) (p : string) : option QByteArray :=
  if endsWith "/" p then None
  else
    match resolve fs p with
    | Some q =>
        match List.find (fun f => String.eqb (path f) q) (files fs) with
        | Some f => if readable f then Some (content f) else None
        | None => None
        end
    | None => None
    end.

End Fs.

(** *** The world around a reader *)

Inductive Event : Type :=
  | LOGE (msg : string)
  | LOGW (msg : string)
  | ZipList (dev : nat)                     (* MQZipReader::fileInfoList *)
  | ZipExtract (dev : nat) (name : string)  (* MQZipReader::fileData *)
  | DirList (root : string)                 (* a QDirIterator traversal *)
  | FileOpen (path : string).               (* QFile::open *)

(** The trace has the latest event first. *)
Record World : Type := mkWorld {
  devices : gmap nat QIODevice;
  fs : Fs.t;
  trace : list Event
}.

Definition emit (e : Event) (w : World) : World :=
  mkWorld (devices w) (fs w) (e :: trace w).

Definition setDev (k : nat) (d : QIODevice) (w : World) : World :=
  mkWorld (<[k := d]> (devices w)) (fs w) (trace w).

(** Dereferencing a device pointer: undefined on null and on a pointer to
    a deleted device. *)
Definition deref (p : option nat) (w : World) : option (nat * QIODevice) :=
  match p with
  | Some k => match devices w !! k with Some d => Some (k, d) | None => None end
  | None => None
  end.

(** [delete device]. *)
Definition deleteDev (k : nat) (w : World) : option World :=
  match devices w !! k with
  | Some _ => Some (mkWorld (delete k (devices w)) (fs w) (trace w))
  | None => None
  end.

(** Number of enumeration passes recorded in a trace. *)
Fixpoint scans (t : list Event) : nat :=
  match t with
  | [] => 0
  | ZipList _ :: t' => S (scans t')
  | DirList _ :: t' => S (scans t')
  | _ :: t' => scans t'
  end.

(** Sequencing of calls that may be undefined. *)
Notation "'let?' x := e 'in' k" :=
  (match e with Some x => k | None => None end)
  (at level 10, x pattern, e at level 100, k at level 200, only parsing).

(** ** Member functions of the collaborators *)

Definition QIODevice_isOpen (p : option nat) (w : World) : option bool :=
  let? (_, d) := deref p w in Some (dev_isOpen d).

(** [QIODevice::open(ReadOnly)]. *)
Definition QIODevice_open (p : option nat) (w : World) : option (bool * World) :=
  let? (k, d) := deref p w in
  if dev_canOpen d
  then Some (true, setDev k (mkDevice true (dev_canOpen d) (dev_image d)) w)
  else Some (false, w).

Definition QIODevice_close (p : option nat) (w : World) : option World :=
  let? (k, d) := deref p w in
  Some (setDev k (mkDevice false (dev_canOpen d) (dev_image d)) w).

(** Modelled from the spec: [MQZipReader::fileInfoList], not among the
    sources.  The backend lists the entries of the archive as (path,
    isFile), in its own order. *)
Definition MQZipReader_fileInfoList (zr : MQZipReader.t) (w : World)
  : option (list MQZipReader.FileInfo * World) :=
  let? (k, d) := deref (MQZipReader.device zr) w in
  Some (List.map MQZipReader.info (MQZipReader.entries (dev_image d)),
        emit (ZipList k) w).

(** Modelled from the spec: [MQZipReader::status], not among the sources:
    the error/status signal of the backend. *)
Definition MQZipReader_status (zr : MQZipReader.t) (w : World)
  : option MQZipReader.Status :=
  let? (_, d) := deref (MQZipReader.device zr) w in
  Some (MQZipReader.status (dev_image d)).

(** Modelled from the spec: [MQZipReader::fileData], not among the sources.
    The backend extracts the bytes of the entry with exactly this path; a
    path that has no entry yields no bytes. *)
Definition MQZipReader_fileData (zr : MQZipReader.t) (name : string) (w : World)
  : option (QByteArray * World) :=
  let? (k, d) := deref (MQZipReader.device zr) w in
  Some (match MQZipReader.lookupEntry name (MQZipReader.entries (dev_image d)) with
        | Some e => MQZipReader.data e
        | None => []
        end,
        emit (ZipExtract k name) w).

(** Modelled from the spec: [MQZipReader::close], not among the sources.
    Closing the archive handle closes the stream below it. *)
Definition MQZipReader_close (zr : MQZipReader.t) (w : World) : option World :=
  QIODevice_close (MQZipReader.device zr) w.

(** ** The reader *)

Module MsczReader.

Record t : Type := mk {
  m_filePath : string;
  m_mode : Mode;
  m_device : option nat;
  m_selfDeviceOwner : bool;
  m_reader : option MQZipReader.t;
  m_meta : Meta
}.

Definition with_reader (zr : option MQZipReader.t) (r : t) : t :=
  mk (m_filePath r) (m_mode r) (m_device r) (m_selfDeviceOwner r) zr (m_meta r).

Definition with_meta (m : Meta) (r : t) : t :=
  mk (m_filePath r) (m_mode r) (m_device r) (m_selfDeviceOwner r) (m_reader r) m.

(** [MsczReader(const QString& filePath, Mode mode)].  The members that
    the constructor does not name take their defaults from msczreader.h,
    which is not among the sources; following the spec's data model they
    are: no stream, no ownership, no backend handle, an empty snapshot. *)
Definition create (filePath : string) (mode : Mode) : t :=
  mk filePath mode None false None Meta_default.

(** [MsczReader(QIODevice* device)]: archive mode, the device not owned. *)
Definition createOnDevice (device : option nat) : t :=
  mk "" Zip device false None Meta_default.

Definition rootPath (r : t) (f : Fs.t) : string :=
  match m_mode r with
  | Zip => "/"
  | Dir => Fs.absolutePath f (m_filePath r)
  end.

Definition filePath (r : t) : string := m_filePath r.

Definition open (r : t) (w : World) : option (bool * World) :=
  match m_mode r with
  | Zip =>
      let? isOpen := QIODevice_isOpen (m_device r) w in
      if negb isOpen then
        let? (ok, w1) := QIODevice_open (m_device r) w in
        if negb ok
        then Some (false, emit (LOGE ("failed open file: " +:+ filePath r)) w1)
        else Some (true, w1)
      else Some (true, w)
  | Dir =>
      let root := rootPath r (fs w) in
      if negb (Fs.exists_ (fs w) root)
      then Some (false, emit (LOGE ("not exists path: " +:+ root)) w)
      else Some (true, w)
  end.

Definition close (r : t) (w : World) : option World :=
  match m_mode r with
  | Zip =>
      let? w1 := match m_reader r with
                 | Some zr => MQZipReader_close zr w
                 | None => Some w
                 end in
      QIODevice_close (m_device r) w1
  | Dir => Some w
  end.

Definition isOpened (r : t) (w : World) : option bool :=
  match m_mode r with
  | Zip => QIODevice_isOpen (m_device r) w
  | Dir => Some (Fs.exists_ (fs w) (rootPath r (fs w)))
  end.

Definition setDevice (r : t) (device : option nat) (w : World) : option (t * World) :=
  (* delete m_reader; m_reader = nullptr *)
  let? w1 := match m_device r, m_selfDeviceOwner r with
             | Some k, true => deleteDev k w
             | _, _ => Some w
             end in
  match m_mode r with
  | Dir =>
      Some (mk (m_filePath r) Zip device false None (m_meta r),
            emit (LOGW "The mode changed to ZIP") w1)
  | Zip =>
      Some (mk (m_filePath r) Zip device false None (m_meta r), w1)
  end.

Definition setFilePath (r : t) (filePath : string) : t :=
  mk filePath (m_mode r) (m_device r) (m_selfDeviceOwner r) None (m_meta r).

Definition setMode (r : t) (m : Mode) : t :=
  mk (m_filePath r) m (m_device r) (m_selfDeviceOwner r) (m_reader r) (m_meta r).

Definition mode (r : t) : Mode := m_mode r.

(** [reader()]: the backend handle, constructed over the current device
    the first time it is asked for. *)
Definition reader (r : t) : MQZipReader.t * t :=
  match m_reader r with
  | Some zr => (zr, r)
  | None =>
      let zr := MQZipReader.mk (m_device r) in
      (zr, with_reader (Some zr) r)
  end.

(** The [fileList] lambda of [meta()]. *)
Definition fileList (r : t) (w : World) : option (list string * t * World) :=
  match m_mode r with
  | Zip =>
      let (zr, r1) := reader r in
      let? (fileInfoList, w1) := MQZipReader_fileInfoList zr w in
      let? st := MQZipReader_status zr w1 in
      let w2 := if negb (MQZipReader.Status_eqb st MQZipReader.NoError)
                then emit (LOGE ("failed read meta, status: " +:+ MQZipReader.Status_text st)) w1
                else w1 in
      Some (List.map MQZipReader.filePath
              (List.filter MQZipReader.isFile fileInfoList), r1, w2)
  | Dir =>
      let root := rootPath r (fs w) in
      Some (List.map (mid (String.length root)) (Fs.dirIterator (fs w) root),
            r, emit (DirList root) w)
  end.

(** The body of the loop of [meta()]. *)
Definition classify (m : Meta) (filePath : string) : Meta :=
  if endsWith ".mscx" filePath then
    mkMeta filePath (imageFilePaths m)
  else if startsWith "Pictures/" filePath then
    mkMeta (mscxFileName m) (imageFilePaths m ++ [filePath])
  else m.

Definition fileData (r : t) (fileName : string) (w : World)
  : option (QByteArray * t * World) :=
  match m_mode r with
  | Zip =>
      let (zr, r1) := reader r in
      let? (data, w1) := MQZipReader_fileData zr fileName w in
      let? st := MQZipReader_status zr w1 in
      if negb (MQZipReader.Status_eqb st MQZipReader.NoError)
      then Some ([], r1, emit (LOGE ("failed read data, status: " +:+ MQZipReader.Status_text st)) w1)
      else Some (data, r1, w1)
  | Dir =>
      let filePath := rootPath r (fs w) +:+ "/" +:+ fileName in
      let w1 := emit (FileOpen filePath) w in
      match Fs.readAll (fs w) filePath with
      | None => Some ([], r, emit (LOGE ("failed open file: " +:+ filePath)) w1)
      | Some data => Some (data, r, w1)
      end
  end.

Definition readThumbnailFile (r : t) (w : World) :=
  fileData r "Thumbnails/thumbnail.png" w.

Definition readImageFile (r : t) (fileName : string) (w : World) :=
  fileData r ("Pictures/" +:+ fileName) w.

Definition readAudioFile (r : t) (w : World) := fileData r "audio.ogg" w.

Definition readAudioSettingsJsonFile (r : t) (w : World) :=
  fileData r "audiosettings.json" w.

(** [~MsczReader()]. *)
Definition destroy (r : t) (w : World) : option World :=
  let? w1 := close r w in
  (* delete m_reader *)
  if m_selfDeviceOwner r then
    match m_device r with
    | Some k => deleteDev k w1
    | None => Some w1
    end
  else Some w1.

Section WithIsValid.

(** [Meta::isValid], declared in the header. *)
Variable isValid : Meta -> bool.

Definition meta (r : t) (w : World) : option (Meta * t * World) :=
  if isValid (m_meta r) then Some (m_meta r, r, w)
  else
    let? (files, r1, w1) := fileList r w in
    let m := List.fold_left classify files (m_meta r1) in
    Some (m, with_meta m r1, w1).

Definition readScoreFile (r : t) (w : World) : option (QByteArray * t * World) :=
  let? (m, r1, w1) := meta r w in
  fileData r1 (mscxFileName m) w1.

(** [QFileInfo(path).fileName()] is the text after the last separator. *)
Definition imageFileNames (r : t) (w : World) : option (list string * t * World) :=
  let? (m, r1, w1) := meta r w in
  Some (List.map afterLastSep (imageFilePaths m), r1, w1).

End WithIsValid.

End MsczReader.

Import MsczReader.

(** ** Containers

    A container content is a list of relative paths with their bytes, in
    enumeration order.  It can be laid out as the image of an archive or
    as a directory tree below a root. *)

Definition Container : Type := list (string * QByteArray).

Definition zipImage (c : Container) : MQZipReader.Image :=
  MQZipReader.mkImage MQZipReader.NoError
    (List.map (fun pb => MQZipReader.mkEntry (MQZipReader.mkFileInfo (fst pb) true) (snd pb)) c).

(** A world with one open device, number 0, that holds the archive. *)
Definition zipWorld (c : Container) : World :=
  mkWorld {[ 0 := mkDevice true true (zipImage c) ]} (Fs.mk "/" ["/"] []) [].

(** A world whose file system holds the tree below [root]. *)
Definition dirWorld (root : string) (c : Container) : World :=
  mkWorld ∅
    (Fs.mk "/" ["/"; root]
       (List.map (fun pb => Fs.mkFile (Fs.dirPrefix root +:+ fst pb) false true (snd pb)) c))
    [].

Definition zipReader : MsczReader.t := createOnDevice (Some 0).

(** A directory-mode reader is bound to a file of the tree. *)
Definition dirReader (root : string) : MsczReader.t :=
  create (Fs.dirPrefix root +:+ "Score.mscx") Dir.

Definition bytes (s : string) : QByteArray := list_byte_of_string s.

Definition sample : Container :=
  [ ("Score.mscx", bytes "<museScore/>");
    ("Pictures/a.png", bytes "A");
    ("Pictures/b.png", bytes "B");
    ("Thumbnails/thumbnail.png", bytes "T") ].

Definition result {A : Type} (x : option (A * MsczReader.t * World)) : option A :=
  match x with Some (a, _, _) => Some a | None => None end.

(** ** Operations as data

    The calls a client can make, and the run of a sequence of calls. *)

Inductive Op : Type :=
  | OpRootPath
  | OpOpen
  | OpClose
  | OpIsOpened
  | OpSetDevice (device : option nat)
  | OpSetFilePath (filePath : string)
  | OpFilePath
  | OpSetMode (m : Mode)
  | OpMode
  | OpMeta
  | OpFileData (fileName : string)
  | OpReadScoreFile
  | OpReadThumbnailFile
  | OpReadImageFile (fileName : string)
  | OpImageFileNames
  | OpReadAudioFile
  | OpReadAudioSettingsJsonFile.

Definition State : Type := (MsczReader.t * World)%type.

Definition after {A : Type} (x : option (A * MsczReader.t * World)) : option State :=
  match x with Some (_, r, w) => Some (r, w) | None => None end.

Section Run.

Variable isValid : Meta -> bool.

Definition step (op : Op) (s : State) : option State :=
  let (r, w) := s in
  match op with
  | OpRootPath | OpFilePath | OpMode => Some (r, w)
  | OpOpen => let? (_, w1) := open r w in Some (r, w1)
  | OpClose => let? w1 := close r w in Some (r, w1)
  | OpIsOpened => let? _ := isOpened r w in Some (r, w)
  | OpSetDevice device => setDevice r device w
  | OpSetFilePath p => Some (setFilePath r p, w)
  | OpSetMode m => Some (setMode r m, w)
  | OpMeta => after (meta isValid r w)
  | OpFileData n => after (fileData r n w)
  | OpReadScoreFile => after (readScoreFile isValid r w)
  | OpReadThumbnailFile => after (readThumbnailFile r w)
  | OpReadImageFile n => after (readImageFile r n w)
  | OpImageFileNames => after (imageFileNames isValid r w)
  | OpReadAudioFile => after (readAudioFile r w)
  | OpReadAudioSettingsJsonFile => after (readAudioSettingsJsonFile r w)
  end.

(** The state after a sequence of calls; undefined as soon as one is. *)
Fixpoint run (ops : list Op) (s : State) : option State :=
  match ops with
  | [] => Some s
  | op :: rest => let? s1 := step op s in run rest s1
  end.

(** The states a sequence of calls goes through, the start included, up to
    the first undefined call. *)
Fixpoint visited (ops : list Op) (s : State) : list State :=
  s :: match ops with
       | [] => []
       | op :: rest =>
           match step op s with
           | Some s1 => visited rest s1
           | None => []
           end
       end.

End Run.

(** ** More containers *)

Definition twoScores : Container :=
  [ ("A.mscx", bytes "a"); ("Pictures/p.png", bytes "P"); ("B.mscx", bytes "b") ].

Definition noScore : Container :=
  [ ("Pictures/p.png", bytes "P"); ("audio.ogg", bytes "O") ].

Definition oneScore : Container :=
  [ ("Score.mscx", bytes "<museScore/>"); ("Pictures/a.png", bytes "A") ].

Definition onlyAudio : Container := [ ("audio.ogg", bytes "O") ].


(** A world with the tree of [cdir] below [root] and, behind device 0, the
    archive of [czip]. *)
Definition mixedWorld (root : string) (cdir czip : Container) : World :=
  mkWorld {[ 0 := mkDevice true true (zipImage czip) ]} (fs (dirWorld root cdir)) [].

Definition otherScore : Container :=
  [ ("Other.mscx", bytes "<other/>"); ("Pictures/z.png", bytes "Z") ].

(** ** Predicates of the statements *)

Definition isMscx (p : string) : bool := endsWith ".mscx" p.

Definition isPicture (p : string) : bool :=
  negb (endsWith ".mscx" p) && startsWith "Pictures/" p.

(** Two reader states that differ at most in the backend handle. *)
Definition sameButHandle (r r1 : MsczReader.t) : Prop :=
  m_filePath r1 = m_filePath r /\ m_mode r1 = m_mode r /\
  m_device r1 = m_device r /\ m_selfDeviceOwner r1 = m_selfDeviceOwner r /\
  m_meta r1 = m_meta r.

(** Two worlds with the same devices and files: only the trace grew. *)
Definition sameStorage (w w1 : World) : Prop :=
  devices w1 = devices w /\ fs w1 = fs w /\ exists evs, trace w1 = evs ++ trace w.

(** The handle of a reader, when there is one, is over the reader's
    device: [reader()] constructs it so and [setDevice] drops it. *)
Definition handleOk (r : MsczReader.t) : Prop :=
  forall zr, m_reader r = Some zr -> MQZipReader.device zr = m_device r.

(** Two reader states that differ at most in the handle and the snapshot. *)
Definition sameButCache (r r1 : MsczReader.t) : Prop :=
  m_filePath r1 = m_filePath r /\ m_mode r1 = m_mode r /\
  m_device r1 = m_device r /\ m_selfDeviceOwner r1 = m_selfDeviceOwner r.

(** The bytes the archive backend hands out for a name. *)
Definition zipData (d : QIODevice) (fileName : string) : QByteArray :=
  match MQZipReader.lookupEntry fileName (MQZipReader.entries (dev_image d)) with
  | Some e => MQZipReader.data e
  | None => []
  end.


Definition entryPath (e : MQZipReader.Entry) : string :=
  MQZipReader.filePath (MQZipReader.info e).

(** [fileName] names nothing in the storage of the reader: no entry of the
    archive has this path; below the root, the name leads to no file. *)
Definition absent (r : MsczReader.t) (w : World) (fileName : string) : Prop :=
  match m_mode r with
  | Zip =>
      forall k d, deref (m_device r) w = Some (k, d) ->
        ~ In fileName (List.map (fun e => MQZipReader.filePath (MQZipReader.info e))
                         (MQZipReader.entries (dev_image d)))
  | Dir =>
      forall q, Fs.resolve (fs w) (rootPath r (fs w) +:+ "/" +:+ fileName) = Some q ->
        ~ In q (List.map Fs.path (Fs.files (fs w)))
  end.

(** The mode after a call, from the mode before it. *)
Definition nextMode (op : Op) (m : Mode) : Mode :=
  match op with
  | OpSetMode m' => m'
  | OpSetDevice _ => Zip
  | _ => m
  end.

(** What every read leaves alone. *)
Definition frame (isValid : Meta -> bool)
    (r : MsczReader.t) (w : World) (r' : MsczReader.t) (w' : World) : Prop :=
  sameButCache r r' /\ sameStorage w w' /\
  (handleOk r -> handleOk r') /\
  (isValid (m_meta r) = true ->
   m_meta r' = m_meta r /\ scans (trace w') = scans (trace w)).

(** A device that the reader owns has not been deleted behind its back. *)
Definition ownedDeviceLive (r : MsczReader.t) (w : World) : Prop :=
  m_selfDeviceOwner r = true ->
  forall k, m_device r = Some k -> is_Some (devices w !! k).

(** A path that the file system reads as it is written: absolute, without
    doubled separators and without "." and ".." components. *)
Definition cleanPath (p : string) : Prop :=
  startsWith "/" p = true /\ collapseSep p = p /\ plain p = true.

(** ** Further worlds and predicates *)

(** A world with one device, number 0, not open yet, that can be opened
    or not. *)
Definition closedWorld (canOpen : bool) (c : Container) : World :=
  mkWorld {[ 0 := mkDevice false canOpen (zipImage c) ]} (Fs.mk "/" ["/"] []) [].

(** A world whose device 0 holds an archive that the backend reports as
    broken, with the entries it could still list. *)
Definition brokenWorld (code : nat) (c : Container) : World :=
  mkWorld {[ 0 := mkDevice true true
                    (MQZipReader.mkImage (MQZipReader.Error code)
                       (MQZipReader.entries (zipImage c))) ]}
    (Fs.mk "/" ["/"] []) [].

Definition nestedPictures : Container :=
  [ ("Pictures/a.png", bytes "A"); ("Pictures/sub/b.png", bytes "B");
    ("Pictures/old.mscx", bytes "<old/>") ].

(** What the classification can leave in a snapshot: a score name that is
    empty or ends in ".mscx", and image paths that begin with "Pictures/"
    and do not end in ".mscx". *)
Definition metaOk (m : Meta) : Prop :=
  (mscxFileName m = "" \/ isMscx (mscxFileName m) = true) /\
  Forall (fun p => isPicture p = true) (imageFilePaths m).

(** The calls that read: the accessors, and the queries that change
    nothing. *)
Definition isRead (op : Op) : bool :=
  match op with
  | OpRootPath | OpFilePath | OpMode | OpIsOpened
  | OpMeta | OpFileData _ | OpReadScoreFile | OpReadThumbnailFile
  | OpReadImageFile _ | OpImageFileNames | OpReadAudioFile
  | OpReadAudioSettingsJsonFile => true
  | OpOpen | OpClose | OpSetDevice _ | OpSetFilePath _ | OpSetMode _ => false
  end.

(** A validity test that looks at the score name only. *)
Definition hasScoreName (m : Meta) : bool :=
  negb (String.eqb (mscxFileName m) "").

(** The events of the archive backend. *)
Definition zipEvent (e : Event) : bool :=
  match e with
  | ZipList _ | ZipExtract _ _ => true
  | _ => false
  end.

(** The events of the file system. *)
Definition fsEvent (e : Event) : bool :=
  match e with
  | DirList _ | FileOpen _ => true
  | _ => false
  end.

(** The same devices exist in two worlds. *)
Definition sameDevices (w w1 : World) : Prop :=
  forall k, is_Some (devices w1 !! k) <-> is_Some (devices w !! k).

(** Every device of [w] is still there in [w1], with the same archive and
    the same readiness to be opened. *)
Definition sameImages (w w1 : World) : Prop :=
  forall k d, devices w !! k = Some d ->
    exists d', devices w1 !! k = Some d' /\
               dev_image d' = dev_image d /\ dev_canOpen d' = dev_canOpen d.

(** From [w] to [w1] no device and no file changed, and the archive
    backend was not called. *)
Definition noZip (w w1 : World) : Prop :=
  devices w1 = devices w /\ fs w1 = fs w /\
  exists evs, trace w1 = evs ++ trace w /\ List.existsb zipEvent evs = false.

(** ** The model on a sample container *)

Example mid_ex : mid 5 "/root/Score.mscx" = "/Score.mscx".
Proof. reflexivity. Qed.
Example endsWith_ex : endsWith ".mscx" "a/Score.mscx" = true /\ endsWith ".mscx" "mscx" = false.
Proof. split; reflexivity. Qed.
Example afterLastSep_ex : afterLastSep "Pictures/sub/a.png" = "a.png".
Proof. reflexivity. Qed.
Example beforeLastSep_ex : beforeLastSep "/home/u/s/Score.mscx" = "/home/u/s" /\ beforeLastSep "/Score.mscx" = "".
Proof. split; reflexivity. Qed.
Example collapseSep_ex : collapseSep "/r//Pictures///a.png" = "/r/Pictures/a.png".
Proof. reflexivity. Qed.

Example sample_zip_meta :
  result (meta Meta_isValid zipReader (zipWorld sample))
  = Some (mkMeta "Score.mscx" ["Pictures/a.png"; "Pictures/b.png"]).
Proof. vm_compute. reflexivity. Qed.

Example sample_zip_thumbnail :
  result (readThumbnailFile zipReader (zipWorld sample)) = Some (bytes "T")
  /\ result (readAudioFile zipReader (zipWorld sample)) = Some [].
Proof. vm_compute. split; reflexivity. Qed.

Example sample_dir_score :
  result (readScoreFile Meta_isValid (dirReader "/home/u/s") (dirWorld "/home/u/s" sample))
  = Some (bytes "<museScore/>").
Proof. vm_compute. reflexivity. Qed.

(** ** Lemmas on strings *)

Lemma append_empty_r (s : string) : s +:+ "" = s.
Proof. induction s as [|c s IH]; simpl; [reflexivity | now rewrite IH]. Qed.

Lemma append_assoc (a b c : string) : (a +:+ b) +:+ c = a +:+ b +:+ c.
Proof. induction a as [|x a IH]; simpl; [reflexivity | now rewrite IH]. Qed.

Lemma mid_append (a b : string) : mid (String.length a) (a +:+ b) = b.
Proof. induction a as [|c a IH]; simpl; [now destruct b | exact IH]. Qed.

Lemma startsWith_spec (p s : string) :
  startsWith p s = true <-> exists t, s = p +:+ t.
Proof.
  revert s. induction p as [|a p IH]; intros s; simpl.
  - split; [intros _; now exists s | reflexivity].
  - destruct s as [|b s]; simpl.
    + split; [discriminate | intros [t Ht]; discriminate].
    + rewrite andb_true_iff, Ascii.eqb_eq, IH. split.
      * intros [-> [t ->]]. now exists t.
      * intros [t Ht]. injection Ht as -> ->. split; [reflexivity | now exists t].
Qed.

Lemma endsWith_spec (suf s : string) :
  endsWith suf s = true <-> exists pre, s = pre +:+ suf.
Proof.
  induction s as [|c s IH]; simpl.
  - rewrite orb_false_r, String.eqb_eq. split.
    + intros ->. now exists "".
    + intros [pre H]. destruct pre; simpl in H; [now subst | discriminate].
  - rewrite orb_true_iff, String.eqb_eq, IH. split.
    + intros [-> | [pre ->]]; [now exists "" | now exists (String c pre)].
    + intros [pre H]. destruct pre as [|d pre]; simpl in H.
      * left. now subst.
      * right. injection H as -> ->. now exists pre.
Qed.

Lemma endsWith_append (a suf : string) : endsWith suf (a +:+ suf) = true.
Proof. apply endsWith_spec. now exists a. Qed.

(** Stripping a root that has no trailing separator from a path below it
    leaves the separator in front. *)
Lemma mid_below_root (root p : string) :
  endsWith "/" root = false ->
  startsWith (Fs.dirPrefix root) p = true ->
  startsWith "/" (mid (String.length root) p) = true.
Proof.
  intros Hroot Hp. unfold Fs.dirPrefix in Hp. rewrite Hroot in Hp.
  apply startsWith_spec in Hp as [t ->].
  rewrite append_assoc, mid_append. reflexivity.
Qed.

Lemma startsWith_sep_not_pictures (p : string) :
  startsWith "/" p = true -> startsWith "Pictures/" p = false.
Proof.
  destruct p as [|c p]; [discriminate |].
  cbn [startsWith]. rewrite andb_true_r. intros H.
  apply Ascii.eqb_eq in H. subst c. reflexivity.
Qed.

(** ** Lemmas on the classification pass *)

Lemma last_cons {A : Type} (a d : A) (l : list A) :
  List.last (a :: l) d = List.last l a.
Proof.
  revert a d. induction l as [|b l IH]; intros a d; [reflexivity |].
  change (List.last (b :: l) d = List.last (b :: l) a).
  now rewrite !IH.
Qed.

(** The pass leaves in [mscxFileName] the last candidate of the list, and
    the value it had when there is none. *)
Lemma classify_fold_mscx (files : list string) (m : Meta) :
  mscxFileName (List.fold_left classify files m)
  = List.last (List.filter isMscx files) (mscxFileName m).
Proof.
  revert m. induction files as [|p files IH]; intros m; [reflexivity |].
  cbn [List.fold_left List.filter]. rewrite IH. unfold classify, isMscx.
  destruct (endsWith ".mscx" p) eqn:E.
  - now rewrite last_cons.
  - now destruct (startsWith "Pictures/" p).
Qed.

(** The pass appends the picture paths, in order, to what
    [imageFilePaths] held. *)
Lemma classify_fold_images (files : list string) (m : Meta) :
  imageFilePaths (List.fold_left classify files m)
  = imageFilePaths m ++ List.filter isPicture files.
Proof.
  revert m. induction files as [|p files IH]; intros m.
  - cbn. now rewrite app_nil_r.
  - cbn [List.fold_left List.filter]. rewrite IH. unfold classify, isPicture.
    destruct (endsWith ".mscx" p); cbn [negb andb]; [reflexivity |].
    destruct (startsWith "Pictures/" p); cbn [imageFilePaths]; [| reflexivity].
    now rewrite <- app_assoc.
Qed.

(** ** What a call leaves alone *)

Lemma sameButHandle_refl (r : MsczReader.t) : sameButHandle r r.
Proof. repeat split. Qed.

Lemma sameStorage_refl (w : World) : sameStorage w w.
Proof. repeat split. now exists []. Qed.

Lemma sameStorage_emit (e : Event) (w w1 : World) :
  sameStorage w w1 -> sameStorage w (emit e w1).
Proof.
  intros (Hd & Hf & evs & Ht). repeat split; [exact Hd | exact Hf |].
  exists (e :: evs). cbn. now rewrite Ht.
Qed.

Lemma sameStorage_trans (w w1 w2 : World) :
  sameStorage w w1 -> sameStorage w1 w2 -> sameStorage w w2.
Proof.
  intros (Hd & Hf & evs & Ht) (Hd' & Hf' & evs' & Ht').
  repeat split; [congruence | congruence |].
  exists (evs' ++ evs). rewrite Ht', Ht. now rewrite app_assoc.
Qed.

Lemma deref_sameStorage (p : option nat) (w w1 : World) :
  sameStorage w w1 -> deref p w1 = deref p w.
Proof. intros (Hd & _). unfold deref. now rewrite Hd. Qed.

Lemma reader_inv (r r1 : MsczReader.t) (zr : MQZipReader.t) :
  reader r = (zr, r1) ->
  m_reader r1 = Some zr /\ sameButHandle r r1 /\
  (handleOk r -> handleOk r1 /\ MQZipReader.device zr = m_device r).
Proof.
  unfold reader. destruct (m_reader r) as [zr0|] eqn:E; intros [= <- <-].
  - repeat split; auto.
  - repeat split. intros zr. cbn. now intros [= <-].
Qed.

Ltac storage := repeat apply sameStorage_emit; apply sameStorage_refl.

(** The enumeration: one pass is recorded, the storage is untouched and
    so is the reader but for its handle. *)
Lemma fileList_inv (r : MsczReader.t) (w : World) files r1 w1 :
  fileList r w = Some (files, r1, w1) ->
  sameButHandle r r1 /\ sameStorage w w1 /\
  scans (trace w1) = S (scans (trace w)) /\
  (m_mode r = Zip -> m_reader r1 <> None) /\
  (handleOk r -> handleOk r1).
Proof.
  unfold fileList. destruct (m_mode r) eqn:Hmode.
  - destruct (reader r) as [zr r0] eqn:Hrd.
    apply reader_inv in Hrd as (Hzr & Hsame & Hok).
    unfold MQZipReader_fileInfoList, MQZipReader_status.
    destruct (deref (MQZipReader.device zr) w) as [[k d]|] eqn:Hd; [| discriminate].
    change (deref (MQZipReader.device zr) (emit (ZipList k) w))
      with (deref (MQZipReader.device zr) w).
    rewrite Hd.
    destruct (negb _); intros [= <- <- <-].
    all: split; [exact Hsame | split; [storage | split; [reflexivity |]]].
    all: split; [intros _; congruence | intros H; now apply Hok].
  - intros [= <- <- <-].
    split; [apply sameButHandle_refl | split; [storage | split; [reflexivity |]]].
    split; [discriminate | auto].
Qed.

Lemma sameButHandle_trans (r r1 r2 : MsczReader.t) :
  sameButHandle r r1 -> sameButHandle r1 r2 -> sameButHandle r r2.
Proof.
  unfold sameButHandle. intros (? & ? & ? & ? & ?) (? & ? & ? & ? & ?).
  repeat split; congruence.
Qed.

(** A read by path: the storage is untouched, no pass is recorded, and
    the reader changes at most in its handle. *)
Lemma fileData_inv (r : MsczReader.t) (fileName : string) (w : World) data r1 w1 :
  fileData r fileName w = Some (data, r1, w1) ->
  sameButHandle r r1 /\ sameStorage w w1 /\
  scans (trace w1) = scans (trace w) /\
  (handleOk r -> handleOk r1).
Proof.
  unfold fileData. destruct (m_mode r) eqn:Hmode.
  - destruct (reader r) as [zr r0] eqn:Hrd.
    apply reader_inv in Hrd as (Hzr & Hsame & Hok).
    unfold MQZipReader_fileData, MQZipReader_status.
    destruct (deref (MQZipReader.device zr) w) as [[k d]|] eqn:Hd; [| discriminate].
    change (deref (MQZipReader.device zr) (emit (ZipExtract k fileName) w))
      with (deref (MQZipReader.device zr) w).
    rewrite Hd.
    destruct (negb _); intros [= <- <- <-].
    all: split; [exact Hsame | split; [storage | split; [reflexivity |]]].
    all: intros H; now apply Hok.
  - destruct (Fs.readAll _ _); intros [= <- <- <-].
    all: split; [apply sameButHandle_refl | split; [storage | split; [reflexivity | auto]]].
Qed.

(** A read by path is defined in directory mode, and in archive mode as
    soon as the device is there. *)
Lemma fileData_defined (r : MsczReader.t) (fileName : string) (w : World) :
  handleOk r ->
  (m_mode r = Zip -> deref (m_device r) w <> None) ->
  exists data r1 w1, fileData r fileName w = Some (data, r1, w1).
Proof.
  intros Hok Hdev. unfold fileData. destruct (m_mode r) eqn:Hmode.
  - destruct (reader r) as [zr r0] eqn:Hrd.
    apply reader_inv in Hrd as (Hzr & Hsame & Hok').
    destruct (Hok' Hok) as [_ Hzd].
    unfold MQZipReader_fileData, MQZipReader_status. rewrite Hzd.
    destruct (deref (m_device r) w) as [[k d]|] eqn:Hd; [| now destruct Hdev].
    change (deref (m_device r) (emit (ZipExtract k fileName) w))
      with (deref (m_device r) w).
    rewrite Hd. destruct (negb _); eauto.
  - destruct (Fs.readAll _ _); eauto.
Qed.

Section MetaLemmas.

Variable isValid : Meta -> bool.

Lemma meta_cached (r : MsczReader.t) (w : World) :
  isValid (m_meta r) = true -> meta isValid r w = Some (m_meta r, r, w).
Proof. intros H. unfold meta. now rewrite H. Qed.

Lemma meta_scan (r : MsczReader.t) (w : World) files r1 w1 :
  isValid (m_meta r) = false ->
  fileList r w = Some (files, r1, w1) ->
  meta isValid r w
  = Some (List.fold_left classify files (m_meta r),
          with_meta (List.fold_left classify files (m_meta r)) r1, w1).
Proof.
  intros H Hfl. unfold meta. rewrite H, Hfl.
  apply fileList_inv in Hfl as ((_ & _ & _ & _ & Hm) & _). now rewrite Hm.
Qed.

Lemma sameButHandle_cache (r r1 : MsczReader.t) :
  sameButHandle r r1 -> sameButCache r r1.
Proof. unfold sameButHandle, sameButCache. tauto. Qed.

Lemma sameButCache_trans (r r1 r2 : MsczReader.t) :
  sameButCache r r1 -> sameButCache r1 r2 -> sameButCache r r2.
Proof.
  unfold sameButCache. intros (? & ? & ? & ?) (? & ? & ? & ?).
  repeat split; congruence.
Qed.

Lemma meta_inv (r : MsczReader.t) (w : World) m r1 w1 :
  meta isValid r w = Some (m, r1, w1) ->
  m_meta r1 = m /\ sameButCache r r1 /\ sameStorage w w1 /\
  (handleOk r -> handleOk r1) /\
  (if isValid (m_meta r)
   then r1 = r /\ w1 = w
   else scans (trace w1) = S (scans (trace w))).
Proof.
  unfold meta. destruct (isValid (m_meta r)) eqn:Hv.
  - intros [= <- <- <-]. repeat split; auto. apply sameStorage_refl.
  - destruct (fileList r w) as [[[files r0] w0]|] eqn:Hfl; [| discriminate].
    intros [= <- <- <-].
    apply fileList_inv in Hfl as (Hsame & Hst & Hsc & _ & Hok).
    split; [reflexivity |].
    split; [| split; [exact Hst | split; [| exact Hsc]]].
    + apply sameButHandle_cache in Hsame. exact Hsame.
    + intros H zr. cbn. apply Hok in H. apply H.
Qed.

End MetaLemmas.

(** ** The two storage branches of a read, spelled out *)

Lemma rootPath_same (r r1 : MsczReader.t) (f : Fs.t) :
  sameButCache r r1 -> rootPath r1 f = rootPath r f.
Proof. intros (Hp & Hm & _). unfold rootPath. now rewrite Hp, Hm. Qed.

Lemma fileData_zip (r : MsczReader.t) (fileName : string) (w : World) k d :
  m_mode r = Zip -> handleOk r -> deref (m_device r) w = Some (k, d) ->
  exists r1 w1,
    fileData r fileName w
    = Some (if MQZipReader.Status_eqb (MQZipReader.status (dev_image d)) MQZipReader.NoError
            then zipData d fileName else [], r1, w1).
Proof.
  intros Hmode Hok Hd. unfold fileData. rewrite Hmode.
  destruct (reader r) as [zr r0] eqn:Hrd.
  apply reader_inv in Hrd as (_ & _ & Hok').
  destruct (Hok' Hok) as [_ Hzd].
  unfold MQZipReader_fileData, MQZipReader_status. rewrite Hzd, Hd.
  change (deref (m_device r) (emit (ZipExtract k fileName) w))
    with (deref (m_device r) w).
  rewrite Hd. fold (zipData d fileName).
  destruct (MQZipReader.Status_eqb _ _); cbn [negb]; eauto.
Qed.

Lemma fileData_dir (r : MsczReader.t) (fileName : string) (w : World) :
  m_mode r = Dir ->
  exists w1,
    fileData r fileName w
    = Some (match Fs.readAll (fs w) (rootPath r (fs w) +:+ "/" +:+ fileName) with
            | Some data => data
            | None => []
            end, r, w1).
Proof.
  intros Hmode. unfold fileData. rewrite Hmode.
  destruct (Fs.readAll _ _); eauto.
Qed.

(** In archive mode the enumeration is the list of the paths of the file
    entries of the device. *)
Lemma fileList_zip (r : MsczReader.t) (w : World) files r1 w1 :
  m_mode r = Zip -> handleOk r ->
  fileList r w = Some (files, r1, w1) ->
  exists k d,
    deref (m_device r) w = Some (k, d) /\
    files = List.map MQZipReader.filePath
              (List.filter MQZipReader.isFile
                 (List.map MQZipReader.info (MQZipReader.entries (dev_image d)))).
Proof.
  intros Hmode Hok. unfold fileList. rewrite Hmode.
  destruct (reader r) as [zr r0] eqn:Hrd.
  apply reader_inv in Hrd as (_ & _ & Hok').
  destruct (Hok' Hok) as [_ Hzd].
  unfold MQZipReader_fileInfoList, MQZipReader_status. rewrite Hzd.
  destruct (deref (m_device r) w) as [[k d]|] eqn:Hd; [| discriminate].
  change (deref (m_device r) (emit (ZipList k) w)) with (deref (m_device r) w).
  rewrite Hd. intros [= <- _ _]. now exists k, d.
Qed.

(** In directory mode the enumeration is the traversal of the root, each
    path cut by the length of the root. *)
Lemma fileList_dir (r : MsczReader.t) (w : World) :
  m_mode r = Dir ->
  fileList r w
  = Some (List.map (mid (String.length (rootPath r (fs w))))
            (Fs.dirIterator (fs w) (rootPath r (fs w))),
          r, emit (DirList (rootPath r (fs w))) w).
Proof. intros Hmode. unfold fileList. now rewrite Hmode. Qed.

Lemma lookupEntry_none (name : string) (es : list MQZipReader.Entry) :
  ~ In name (List.map (fun e => MQZipReader.filePath (MQZipReader.info e)) es) ->
  MQZipReader.lookupEntry name es = None.
Proof.
  unfold MQZipReader.lookupEntry. induction es as [|e es IH]; intros H; [reflexivity |].
  cbn [List.find]. destruct (String.eqb _ name) eqn:E.
  - apply String.eqb_eq in E. destruct H. now left.
  - apply IH. intros Hin. apply H. now right.
Qed.

Lemma readAll_none (f : Fs.t) (p : string) :
  (forall q, Fs.resolve f p = Some q -> ~ In q (List.map Fs.path (Fs.files f))) ->
  Fs.readAll f p = None.
Proof.
  intros H. unfold Fs.readAll. destruct (endsWith "/" p); [reflexivity |].
  destruct (Fs.resolve f p) as [q|]; [| reflexivity].
  destruct (List.find _ _) as [x|] eqn:E; [| reflexivity].
  apply List.find_some in E as [Hin Heq]. apply String.eqb_eq in Heq.
  destruct (H q eq_refl). rewrite <- Heq. now apply List.in_map.
Qed.

(** ** Resolution of the primary document *)

(** C5. When the enumeration of a reader without a valid snapshot holds two
    or more paths that end in ".mscx", [meta()] resolves [mscxFileName] to
    the one that comes last in the enumeration order: in the loop each
    candidate overwrites what the earlier ones left. *)
Theorem C5_last_candidate_wins (isValid : Meta -> bool)
    (r : MsczReader.t) (w : World) files r1 w1 :
  isValid (m_meta r) = false ->
  fileList r w = Some (files, r1, w1) ->
  2 <= List.length (List.filter isMscx files) ->
  (forall m p, isMscx p = true -> mscxFileName (classify m p) = p) /\
  exists m r2,
    meta isValid r w = Some (m, r2, w1) /\
    m_meta r2 = m /\
    mscxFileName m = List.last (List.filter isMscx files) "" /\
    exists earlier, List.filter isMscx files = earlier ++ [mscxFileName m].
Proof.
  intros Hv Hfl Hlen. split.
  - intros m p Hp. unfold classify. unfold isMscx in Hp. now rewrite Hp.
  - rewrite (meta_scan isValid r w files r1 w1 Hv Hfl).
    eexists _, _. split; [reflexivity |]. split; [reflexivity |].
    rewrite classify_fold_mscx.
    destruct (List.filter isMscx files) as [|c cs] eqn:E; [cbn in Hlen; lia |].
    assert (Hne : c :: cs <> []) by discriminate.
    destruct (List.exists_last Hne) as (earlier & x & Hx).
    rewrite Hx, !List.last_last. split; [reflexivity | now exists earlier].
Qed.

Lemma C5_witness :
  exists m, result (meta Meta_isValid zipReader (zipWorld twoScores)) = Some m
            /\ mscxFileName m = "B.mscx".
Proof.
  edestruct (C5_last_candidate_wins Meta_isValid zipReader (zipWorld twoScores))
    as (_ & m & r2 & Hm & _ & Hlast & _).
  - reflexivity.
  - vm_compute. reflexivity.
  - vm_compute. lia.
  - exists m. rewrite Hm. split; [reflexivity | rewrite Hlast; reflexivity].
Defined.



Example C6_dir_example :
  result (readScoreFile Meta_isValid (dirReader "/home/u/s") (dirWorld "/home/u/s" noScore))
  = Some [].
Proof. vm_compute. reflexivity. Qed.


Lemma filter_file_paths (es : list MQZipReader.Entry) :
  List.filter isMscx
    (List.map MQZipReader.filePath
       (List.filter MQZipReader.isFile (List.map MQZipReader.info es)))
  = List.map entryPath
      (List.filter (fun e => MQZipReader.isFile (MQZipReader.info e))
         (List.filter (fun e => isMscx (entryPath e)) es)).
Proof.
  induction es as [|e es IH]; [reflexivity |].
  cbn [List.map List.filter]. unfold entryPath at 2.
  destruct (MQZipReader.isFile (MQZipReader.info e)) eqn:Hf;
    destruct (isMscx (MQZipReader.filePath (MQZipReader.info e))) eqn:Hm;
    cbn [List.map List.filter]; rewrite ?Hf, ?Hm; cbn [List.map]; now rewrite IH.
Qed.

Lemma lookupEntry_single (es : list MQZipReader.Entry) (e : MQZipReader.Entry) :
  List.filter (fun e => isMscx (entryPath e)) es = [e] ->
  MQZipReader.lookupEntry (entryPath e) es = Some e.
Proof.
  intros Hone.
  assert (Hin : In e (List.filter (fun e => isMscx (entryPath e)) es))
    by (rewrite Hone; now left).
  apply List.filter_In in Hin as [Hin Hm].
  unfold MQZipReader.lookupEntry.
  destruct (List.find _ es) as [e'|] eqn:E.
  - apply List.find_some in E as [Hin' Heq]. apply String.eqb_eq in Heq.
    assert (H : In e' (List.filter (fun e => isMscx (entryPath e)) es)).
    { apply List.filter_In. split; [exact Hin' |]. unfold entryPath. now rewrite Heq. }
    rewrite Hone in H. destruct H as [-> | []]. reflexivity.
  - apply (List.find_none _ _ E) in Hin. unfold entryPath in Hin.
    now rewrite String.eqb_refl in Hin.
Qed.

(** The archive branch does what C4 asks for: with exactly one entry whose
    path ends in ".mscx", a file, in a sound archive, [readScoreFile()]
    returns the bytes of that entry and [mscxFileName] is its path. *)
Lemma readScoreFile_zip_single (isValid : Meta -> bool)
    (r : MsczReader.t) (w : World) k d e :
  m_mode r = Zip -> handleOk r ->
  isValid (m_meta r) = false ->
  deref (m_device r) w = Some (k, d) ->
  MQZipReader.status (dev_image d) = MQZipReader.NoError ->
  List.filter (fun e => isMscx (entryPath e)) (MQZipReader.entries (dev_image d)) = [e] ->
  MQZipReader.isFile (MQZipReader.info e) = true ->
  exists r3 w3,
    readScoreFile isValid r w = Some (MQZipReader.data e, r3, w3) /\
    mscxFileName (m_meta r3) = entryPath e.
Proof.
  intros Hmode Hok Hv Hd Hst Hone Hfile.
  destruct (fileList r w) as [[[files r1] w1]|] eqn:Hfl.
  2:{ unfold fileList in Hfl. rewrite Hmode in Hfl.
      destruct (reader r) as [zr r0] eqn:Hrd.
      apply reader_inv in Hrd as (_ & _ & Hok'). destruct (Hok' Hok) as [_ Hzd].
      unfold MQZipReader_fileInfoList, MQZipReader_status in Hfl.
      rewrite Hzd, Hd in Hfl.
      change (deref (m_device r) (emit (ZipList k) w)) with (deref (m_device r) w) in Hfl.
      rewrite Hd in Hfl. discriminate. }
  destruct (fileList_zip r w files r1 w1 Hmode Hok Hfl) as (k' & d' & Hd' & Hfiles).
  rewrite Hd in Hd'. injection Hd' as <- <-.
  pose proof (meta_scan isValid r w files r1 w1 Hv Hfl) as Hmeta.
  assert (Hm : mscxFileName (List.fold_left classify files (m_meta r)) = entryPath e).
  { rewrite classify_fold_mscx, Hfiles, filter_file_paths, Hone.
    cbn [List.filter]. rewrite Hfile. reflexivity. }
  unfold readScoreFile. rewrite Hmeta, Hm.
  pose proof (fileList_inv r w files r1 w1 Hfl) as (Hsame & Hsto & _ & _ & Hok1).
  destruct Hsame as (Hp1 & Hm1 & Hd1 & Ho1 & Hme1).
  set (m := List.fold_left classify files (m_meta r)) in *.
  destruct (fileData_zip (with_meta m r1) (entryPath e) w1 k d) as (r3 & w3 & Hfd).
  - cbn. congruence.
  - intros zr. cbn. intros Hzr. now apply (Hok1 Hok).
  - cbn. rewrite (deref_sameStorage _ w w1 Hsto). congruence.
  - exists r3, w3. rewrite Hst in Hfd. cbn [MQZipReader.Status_eqb] in Hfd.
    unfold zipData in Hfd. rewrite (lookupEntry_single _ _ Hone) in Hfd.
    split; [exact Hfd |].
    apply fileData_inv in Hfd as ((_ & _ & _ & _ & H) & _).
    rewrite H. exact Hm.
Qed.

(** C4, at a directory container.  The tree below /home/u/s holds
    Score.mscx and Pictures/a.png.  [readScoreFile()] returns the bytes of
    Score.mscx, but [mscxFileName] is "/Score.mscx": the enumeration strips
    the root without the separator that follows it.  The archive over the
    same content resolves "Score.mscx". *)
Theorem C4_dir_path_keeps_separator :
  result (meta Meta_isValid (dirReader "/home/u/s") (dirWorld "/home/u/s" oneScore))
    = Some (mkMeta "/Score.mscx" []) /\
  result (readScoreFile Meta_isValid (dirReader "/home/u/s") (dirWorld "/home/u/s" oneScore))
    = Some (bytes "<museScore/>") /\
  result (meta Meta_isValid zipReader (zipWorld oneScore))
    = Some (mkMeta "Score.mscx" ["Pictures/a.png"]) /\
  result (readScoreFile Meta_isValid zipReader (zipWorld oneScore))
    = Some (bytes "<museScore/>").
Proof. vm_compute. repeat split; reflexivity. Qed.

(** C1, at the same content.  Over Score.mscx and Pictures/a.png the
    archive reader lists the image a.png and the directory reader lists
    none; the reads by path agree. *)
Theorem C1_modes_disagree_on_images :
  result (imageFileNames Meta_isValid zipReader (zipWorld oneScore)) = Some ["a.png"] /\
  result (imageFileNames Meta_isValid (dirReader "/home/u/s") (dirWorld "/home/u/s" oneScore))
    = Some [] /\
  result (readImageFile zipReader "a.png" (zipWorld oneScore)) = Some (bytes "A") /\
  result (readImageFile (dirReader "/home/u/s") "a.png" (dirWorld "/home/u/s" oneScore))
    = Some (bytes "A").
Proof. vm_compute. repeat split; reflexivity. Qed.

(** ** The enumeration in directory mode *)

Lemma dirIterator_below (f : Fs.t) (root p : string) :
  In p (Fs.dirIterator f root) -> startsWith (Fs.dirPrefix root) p = true.
Proof.
  unfold Fs.dirIterator. intros H.
  apply List.in_map_iff in H as (x & <- & Hx).
  apply List.filter_In in Hx as [_ Hl]. unfold Fs.listed in Hl.
  now repeat (apply andb_true_iff in Hl as [Hl _]).
Qed.

Lemma filter_isPicture_sep (files : list string) :
  Forall (fun p => startsWith "/" p = true) files ->
  List.filter isPicture files = [].
Proof.
  induction 1 as [|p files Hp _ IH]; [reflexivity |].
  cbn [List.filter]. unfold isPicture at 1.
  rewrite (startsWith_sep_not_pictures p Hp), andb_false_r. exact IH.
Qed.

(** C9, amended.  For a reader in directory mode whose root path does not
    end with the separator, every path of the enumeration begins with the
    separator, so none passes the test [startsWith("Pictures/")]; if the
    snapshot held no image path before, [meta()] returns one that holds
    none, whatever lies below the Pictures folder. *)
Theorem C9_dir_images_stay_empty (isValid : Meta -> bool)
    (r : MsczReader.t) (w : World) :
  m_mode r = Dir ->
  endsWith "/" (rootPath r (fs w)) = false ->
  imageFilePaths (m_meta r) = [] ->
  (exists files w1,
     fileList r w = Some (files, r, w1) /\
     Forall (fun p => startsWith "/" p = true) files /\
     Forall (fun p => startsWith "Pictures/" p = false) files) /\
  (exists m r1 w1,
     meta isValid r w = Some (m, r1, w1) /\ imageFilePaths m = []).
Proof.
  intros Hmode Hroot Hempty.
  pose proof (fileList_dir r w Hmode) as Hfl.
  set (root := rootPath r (fs w)) in *.
  set (files := List.map (mid (String.length root)) (Fs.dirIterator (fs w) root)) in *.
  assert (Hsep : Forall (fun p => startsWith "/" p = true) files).
  { apply List.Forall_forall. intros p Hp. unfold files in Hp.
    apply List.in_map_iff in Hp as (q & <- & Hq).
    apply mid_below_root; [exact Hroot | now apply dirIterator_below with (fs w)]. }
  split.
  - exists files, (emit (DirList root) w). split; [exact Hfl |]. split; [exact Hsep |].
    eapply List.Forall_impl; [| exact Hsep].
    intros p. apply startsWith_sep_not_pictures.
  - destruct (isValid (m_meta r)) eqn:Hv.
    + rewrite (meta_cached isValid r w Hv). eauto.
    + rewrite (meta_scan isValid r w _ _ _ Hv Hfl).
      eexists _, _, _. split; [reflexivity |].
      rewrite classify_fold_images, Hempty, (filter_isPicture_sep _ Hsep). reflexivity.
Qed.

Lemma C9_witness :
  exists m, result (meta Meta_isValid (dirReader "/home/u/s") (dirWorld "/home/u/s" sample)) = Some m
            /\ imageFilePaths m = [].
Proof.
  destruct (C9_dir_images_stay_empty Meta_isValid
              (dirReader "/home/u/s") (dirWorld "/home/u/s" sample))
    as (_ & m & r1 & w1 & Hm & Himg).
  - reflexivity.
  - vm_compute. reflexivity.
  - reflexivity.
  - exists m. rewrite Hm. split; [reflexivity | exact Himg].
Defined.

(** C9 as stated fails for a tree at the root of the file system: the root
    path "/" ends with the separator, the enumerated paths come out
    relative, and the pictures are found.  It also fails for a reader that
    filled its snapshot in archive mode and was then set to directory
    mode. *)
Lemma C9_counterexample :
  m_mode (dirReader "/") = Dir /\
  rootPath (dirReader "/") (fs (dirWorld "/" oneScore)) = "/" /\
  result (fileList (dirReader "/") (dirWorld "/" oneScore))
    = Some ["Score.mscx"; "Pictures/a.png"] /\
  result (meta Meta_isValid (dirReader "/") (dirWorld "/" oneScore))
    = Some (mkMeta "Score.mscx" ["Pictures/a.png"]) /\
  match run Meta_isValid [OpMeta; OpSetMode Dir; OpMeta] (zipReader, zipWorld oneScore) with
  | Some (r, _) => m_mode r = Dir /\ imageFilePaths (m_meta r) = ["Pictures/a.png"]
  | None => False
  end.
Proof. vm_compute. repeat split; reflexivity. Qed.

(** ** Reads of what is not there *)

(** C7, amended.  On an opened reader a read of a path that names nothing
    in the storage is defined and returns no bytes; the devices and the
    files are as before, the reader too but for its backend handle.  In
    directory mode the trace gains the open attempt and one error line.
    In archive mode it gains the extraction, and an error line only when
    the backend reports a status other than [NoError].  [readImageFile]
    is such a read. *)
Theorem C7_missing_path_reads_empty (r : MsczReader.t) (w : World) (fileName : string) :
  handleOk r ->
  isOpened r w = Some true ->
  absent r w fileName ->
  (exists r1 w1,
     fileData r fileName w = Some ([], r1, w1) /\
     sameButHandle r r1 /\ devices w1 = devices w /\ fs w1 = fs w /\
     match m_mode r with
     | Dir =>
         trace w1
         = LOGE ("failed open file: " +:+ (rootPath r (fs w) +:+ "/" +:+ fileName))
           :: FileOpen (rootPath r (fs w) +:+ "/" +:+ fileName) :: trace w
     | Zip =>
         exists k d,
           deref (m_device r) w = Some (k, d) /\
           trace w1
           = (if MQZipReader.Status_eqb (MQZipReader.status (dev_image d)) MQZipReader.NoError
              then []
              else [LOGE ("failed read data, status: "
                          +:+ MQZipReader.Status_text (MQZipReader.status (dev_image d)))])
             ++ ZipExtract k fileName :: trace w
     end) /\
  (forall name, fileName = "Pictures/" +:+ name ->
     exists r1 w1, readImageFile r name w = Some ([], r1, w1)).
Proof.
  intros Hok Hopen Habs.
  assert (H : exists r1 w1,
     fileData r fileName w = Some ([], r1, w1) /\
     sameButHandle r r1 /\ devices w1 = devices w /\ fs w1 = fs w /\
     match m_mode r with
     | Dir =>
         trace w1
         = LOGE ("failed open file: " +:+ (rootPath r (fs w) +:+ "/" +:+ fileName))
           :: FileOpen (rootPath r (fs w) +:+ "/" +:+ fileName) :: trace w
     | Zip =>
         exists k d,
           deref (m_device r) w = Some (k, d) /\
           trace w1
           = (if MQZipReader.Status_eqb (MQZipReader.status (dev_image d)) MQZipReader.NoError
              then []
              else [LOGE ("failed read data, status: "
                          +:+ MQZipReader.Status_text (MQZipReader.status (dev_image d)))])
             ++ ZipExtract k fileName :: trace w
     end).
  { unfold absent in Habs. unfold isOpened in Hopen. unfold fileData.
    destruct (m_mode r) eqn:Hmode.
    - unfold QIODevice_isOpen in Hopen.
      destruct (deref (m_device r) w) as [[k d]|] eqn:Hd; [| discriminate].
      destruct (reader r) as [zr r0] eqn:Hrd.
      apply reader_inv in Hrd as (_ & Hsame & Hok'). destruct (Hok' Hok) as [_ Hzd].
      unfold MQZipReader_fileData, MQZipReader_status.
      rewrite Hzd, Hd, (lookupEntry_none _ _ (Habs k d eq_refl)).
      change (deref (m_device r) (emit (ZipExtract k fileName) w))
        with (deref (m_device r) w).
      rewrite Hd. cbn beta iota.
      destruct (MQZipReader.Status_eqb (MQZipReader.status (dev_image d))
                  MQZipReader.NoError) eqn:Hst; cbn [negb];
        eexists _, _; (split; [reflexivity |]); (split; [exact Hsame |]);
        (split; [reflexivity |]); (split; [reflexivity |]);
        exists k, d; (split; [reflexivity |]); rewrite Hst; reflexivity.
    - rewrite (readAll_none _ _ Habs).
      eexists _, _. split; [reflexivity |]. split; [apply sameButHandle_refl |].
      split; [reflexivity |]. split; reflexivity. }
  destruct H as (r1 & w1 & Hfd & Hrest). split.
  - exists r1, w1. split; [exact Hfd | exact Hrest].
  - intros name ->. unfold readImageFile. eauto.
Qed.

Lemma C7_witness :
  result (readImageFile zipReader "missing.png" (zipWorld sample)) = Some [].
Proof.
  destruct (C7_missing_path_reads_empty zipReader (zipWorld sample) "Pictures/missing.png")
    as (_ & H).
  - intros zr. discriminate.
  - reflexivity.
  - intros k d. vm_compute. intros [= <- <-] Hin.
    repeat (destruct Hin as [Hin | Hin]; [discriminate |]). exact Hin.
  - destruct (H "missing.png" eq_refl) as (r1 & w1 & Hr). rewrite Hr. reflexivity.
Defined.

(** C7 as stated fails in its last part: in archive mode, over a sound
    archive, the read of a path without entry returns no bytes and writes
    no log line; the trace has the extraction only. *)
Lemma C7_counterexample :
  isOpened zipReader (zipWorld sample) = Some true /\
  match readImageFile zipReader "missing.png" (zipWorld sample) with
  | Some (data, _, w1) =>
      data = [] /\ trace w1 = [ZipExtract 0 "Pictures/missing.png"]
  | None => False
  end.
Proof. vm_compute. repeat split; reflexivity. Qed.

(** A name with "." or ".." in it is followed as the file system follows
    it: it may well name a file. *)
Example dotted_names_are_followed :
  result (fileData (dirReader "/home/u/s") "Pictures/./a.png" (dirWorld "/home/u/s" sample))
    = Some (bytes "A") /\
  result (fileData (dirReader "/home/u/s") "Pictures/../Score.mscx" (dirWorld "/home/u/s" sample))
    = Some (bytes "<museScore/>") /\
  result (fileData (dirReader "/home/u/s") "Nowhere/../Score.mscx" (dirWorld "/home/u/s" sample))
    = Some [].
Proof. vm_compute. repeat split; reflexivity. Qed.

Example C7_dir_example :
  result (readImageFile (dirReader "/home/u/s") "missing.png" (dirWorld "/home/u/s" sample))
  = Some [] /\
  match readImageFile (dirReader "/home/u/s") "missing.png" (dirWorld "/home/u/s" sample) with
  | Some (_, _, w1) =>
      trace w1 = [ LOGE "failed open file: /home/u/s/Pictures/missing.png";
                   FileOpen "/home/u/s/Pictures/missing.png" ]
  | None => False
  end.
Proof. vm_compute. split; reflexivity. Qed.

(** ** One call at a time *)

Lemma open_scans (r : MsczReader.t) (w : World) b w1 :
  open r w = Some (b, w1) -> scans (trace w1) = scans (trace w).
Proof.
  unfold open, QIODevice_isOpen, QIODevice_open.
  destruct (m_mode r).
  - destruct (deref (m_device r) w) as [[k d]|]; [| discriminate].
    destruct (dev_isOpen d); cbn [negb].
    + now intros [= <- <-].
    + destruct (dev_canOpen d); cbn [negb]; now intros [= <- <-].
  - destruct (negb _); now intros [= <- <-].
Qed.

Lemma QIODevice_close_trace (p : option nat) (w w1 : World) :
  QIODevice_close p w = Some w1 -> trace w1 = trace w /\ fs w1 = fs w.
Proof.
  unfold QIODevice_close. destruct (deref p w) as [[k d]|]; [| discriminate].
  now intros [= <-].
Qed.

Lemma close_trace (r : MsczReader.t) (w w1 : World) :
  close r w = Some w1 -> trace w1 = trace w.
Proof.
  unfold close, MQZipReader_close. destruct (m_mode r); [| now intros [= <-]].
  destruct (m_reader r) as [zr|].
  - destruct (QIODevice_close (MQZipReader.device zr) w) as [w0|] eqn:E; [| discriminate].
    intros H. apply QIODevice_close_trace in H as [H _].
    apply QIODevice_close_trace in E as [E _]. congruence.
  - intros H. now apply QIODevice_close_trace in H as [H _].
Qed.

Lemma deleteDev_trace (k : nat) (w w1 : World) :
  deleteDev k w = Some w1 -> trace w1 = trace w.
Proof.
  unfold deleteDev. destruct (devices w !! k); [| discriminate]. now intros [= <-].
Qed.

(** What [setDevice] does to the reader and to the trace. *)
Lemma setDevice_inv (r : MsczReader.t) (device : option nat) (w : World) r' w' :
  setDevice r device w = Some (r', w') ->
  r' = mk (m_filePath r) Zip device false None (m_meta r) /\
  trace w' = (if Mode_eqb (m_mode r) Dir
              then [LOGW "The mode changed to ZIP"] else []) ++ trace w.
Proof.
  unfold setDevice.
  destruct (match m_device r, m_selfDeviceOwner r with
            | Some k, true => deleteDev k w
            | _, _ => Some w
            end) as [w0|] eqn:E; [| discriminate].
  assert (Ht : trace w0 = trace w).
  { destruct (m_device r) as [k|]; [destruct (m_selfDeviceOwner r) |].
    - now apply deleteDev_trace in E.
    - now injection E as <-.
    - now injection E as <-. }
  destruct (m_mode r); intros [= <- <-]; cbn; now rewrite Ht.
Qed.

(** [setDevice] is defined unless it has to delete a device that is gone. *)
Lemma setDevice_defined (r : MsczReader.t) (device : option nat) (w : World) :
  ownedDeviceLive r w -> exists r' w', setDevice r device w = Some (r', w').
Proof.
  intros Hlive. unfold setDevice, deleteDev.
  destruct (m_device r) as [k|] eqn:Hd; [destruct (m_selfDeviceOwner r) eqn:Ho |].
  - destruct (Hlive Ho k Hd) as [d Hk]. rewrite Hk.
    destruct (m_mode r); eauto.
  - destruct (m_mode r); eauto.
  - destruct (m_mode r); eauto.
Qed.

Section StepLemmas.

Variable isValid : Meta -> bool.

Lemma fileData_frame (r : MsczReader.t) (n : string) (w : World) r' w' :
  after (fileData r n w) = Some (r', w') -> frame isValid r w r' w'.
Proof.
  destruct (fileData r n w) as [[[d r1] w1]|] eqn:E; [| discriminate].
  intros [= <- <-]. apply fileData_inv in E as (Hs & Hst & Hsc & Hok).
  split; [now apply sameButHandle_cache |]. split; [exact Hst |].
  split; [exact Hok |]. intros _. split; [apply Hs | exact Hsc].
Qed.

Lemma meta_frame (r : MsczReader.t) (w : World) m r' w' :
  meta isValid r w = Some (m, r', w') -> frame isValid r w r' w'.
Proof.
  intros E. apply meta_inv in E as (Hm & Hs & Hst & Hok & Hc).
  split; [exact Hs |]. split; [exact Hst |]. split; [exact Hok |].
  intros Hv. rewrite Hv in Hc. destruct Hc as [-> ->]. now split.
Qed.

Lemma frame_trans (r : MsczReader.t) (w : World) r1 w1 r2 w2 :
  frame isValid r w r1 w1 -> frame isValid r1 w1 r2 w2 -> frame isValid r w r2 w2.
Proof.
  intros (Hs & Hst & Hok & Hv) (Hs' & Hst' & Hok' & Hv').
  split; [eapply sameButCache_trans; eauto |].
  split; [eapply sameStorage_trans; eauto |].
  split; [auto |].
  intros H. destruct (Hv H) as [Hm Hsc].
  rewrite <- Hm in H. destruct (Hv' H) as [Hm' Hsc']. split; congruence.
Qed.

Lemma readScoreFile_frame (r : MsczReader.t) (w : World) r' w' :
  after (readScoreFile isValid r w) = Some (r', w') -> frame isValid r w r' w'.
Proof.
  unfold readScoreFile.
  destruct (meta isValid r w) as [[[m r1] w1]|] eqn:E; [| discriminate].
  intros H. apply meta_frame in E. apply fileData_frame in H.
  eapply frame_trans; eauto.
Qed.

Lemma imageFileNames_frame (r : MsczReader.t) (w : World) r' w' :
  after (imageFileNames isValid r w) = Some (r', w') -> frame isValid r w r' w'.
Proof.
  unfold imageFileNames.
  destruct (meta isValid r w) as [[[m r1] w1]|] eqn:E; [| discriminate].
  intros [= <- <-]. now apply meta_frame in E.
Qed.

(** The effect of one call on the mode, the ownership flag, the handle and
    a valid snapshot. *)
Lemma step_inv (op : Op) (r : MsczReader.t) (w : World) r' w' :
  step isValid op (r, w) = Some (r', w') ->
  m_mode r' = nextMode op (m_mode r) /\
  (m_selfDeviceOwner r = false -> m_selfDeviceOwner r' = false) /\
  (handleOk r -> handleOk r') /\
  (isValid (m_meta r) = true ->
   m_meta r' = m_meta r /\ scans (trace w') = scans (trace w)).
Proof.
  assert (Hframe : frame isValid r w r' w' ->
            m_mode r' = m_mode r /\
            (m_selfDeviceOwner r = false -> m_selfDeviceOwner r' = false) /\
            (handleOk r -> handleOk r') /\
            (isValid (m_meta r) = true ->
             m_meta r' = m_meta r /\ scans (trace w') = scans (trace w))).
  { intros ((_ & Hm & _ & Ho) & _ & Hok & Hv). repeat split; auto; try congruence.
    all: now apply Hv. }
  destruct op; cbn [step nextMode].
  - intros [= <- <-]. auto.
  - destruct (open r w) as [[b w1]|] eqn:E; [| discriminate].
    intros [= <- <-]. apply open_scans in E. auto.
  - destruct (close r w) as [w1|] eqn:E; [| discriminate].
    intros [= <- <-]. apply close_trace in E. rewrite E. auto.
  - destruct (isOpened r w); [| discriminate]. intros [= <- <-]. auto.
  - intros H. apply setDevice_inv in H as [-> Ht]. cbn.
    repeat split; auto; try discriminate.
    rewrite Ht. now destruct (Mode_eqb _ _).
  - intros [= <- <-]. cbn. repeat split; auto. discriminate.
  - intros [= <- <-]. auto.
  - intros [= <- <-]. cbn. repeat split; auto.
  - intros [= <- <-]. auto.
  - destruct (meta isValid r w) as [[[m r1] w1]|] eqn:E; [| discriminate].
    intros [= <- <-]. apply Hframe. now apply meta_frame in E.
  - intros H. apply Hframe. now apply fileData_frame in H.
  - intros H. apply Hframe. now apply readScoreFile_frame in H.
  - intros H. apply Hframe. now apply fileData_frame in H.
  - intros H. apply Hframe. now apply fileData_frame in H.
  - intros H. apply Hframe. now apply imageFileNames_frame in H.
  - intros H. apply Hframe. now apply fileData_frame in H.
  - intros H. apply Hframe. now apply fileData_frame in H.
Qed.

End StepLemmas.

(** ** The mode along a run *)

(** C8, amended.  The constructors set the mode (the one given, [Zip] over
    a device), and a call changes it only as [nextMode] says:
    [setMode(m)] is defined and sets it to [m], [setDevice] is defined
    (when a device the reader owns is still there to delete) and sets it
    to [Zip] over the new device, every other call keeps it.  So a reader
    in archive mode stays in archive mode through every state of every
    run that has no [setMode(Dir)] in it, a step from [Zip] to [Dir] is a
    [setMode(Dir)], and a step from [Dir] to [Zip] is a [setMode(Zip)] or
    a [setDevice]. *)
Theorem C8_mode_changes_only_by_setters (isValid : Meta -> bool)
    (ops : list Op) (r : MsczReader.t) (w : World) :
  m_mode r = Zip ->
  ~ In (OpSetMode Dir) ops ->
  (forall filePath m device,
     mode (create filePath m) = m /\ mode (createOnDevice device) = Zip) /\
  Forall (fun s : State => m_mode (fst s) = Zip) (visited isValid ops (r, w)) /\
  (forall op r0 w0 r1 w1,
     step isValid op (r0, w0) = Some (r1, w1) ->
     m_mode r0 = Zip -> m_mode r1 = Dir -> op = OpSetMode Dir) /\
  (forall op r0 w0 r1 w1,
     step isValid op (r0, w0) = Some (r1, w1) ->
     m_mode r0 = Dir -> m_mode r1 = Zip ->
     op = OpSetMode Zip \/ exists device, op = OpSetDevice device) /\
  (forall op r0 w0 r1 w1,
     step isValid op (r0, w0) = Some (r1, w1) ->
     m_mode r1 = nextMode op (m_mode r0)) /\
  (forall r0 w0 m,
     step isValid (OpSetMode m) (r0, w0) = Some (setMode r0 m, w0) /\
     mode (setMode r0 m) = m) /\
  (forall r0 w0 device,
     ownedDeviceLive r0 w0 ->
     exists r1 w1,
       step isValid (OpSetDevice device) (r0, w0) = Some (r1, w1) /\
       mode r1 = Zip /\ m_device r1 = device).
Proof.
  intros Hzip Hno. split; [now split | split; [| split; [| split; [| split; [| split]]]]].
  - revert r w Hzip. induction ops as [|op ops IH]; intros r w Hzip.
    + cbn. constructor; [exact Hzip | constructor].
    + cbn [visited]. constructor; [exact Hzip |].
      destruct (step isValid op (r, w)) as [[r1 w1]|] eqn:E; [| constructor].
      apply IH.
      * intros H. apply Hno. now right.
      * apply step_inv in E as (Hm & _). rewrite Hm, Hzip.
        destruct op; try reflexivity.
        destruct m; [reflexivity |]. destruct Hno. now left.
  - intros op r0 w0 r1 w1 E H0 H1. apply step_inv in E as (Hm & _).
    rewrite H0, H1 in Hm. destruct op; try discriminate.
    cbn in Hm. now subst.
  - intros op r0 w0 r1 w1 E H0 H1. apply step_inv in E as (Hm & _).
    rewrite H0, H1 in Hm. destruct op; try discriminate.
    + right. eauto.
    + left. cbn in Hm. now subst.
  - intros op r0 w0 r1 w1 E. now apply step_inv in E as (Hm & _).
  - intros r0 w0 m. split; reflexivity.
  - intros r0 w0 device Hlive.
    destruct (setDevice_defined r0 device w0 Hlive) as (r1 & w1 & E).
    exists r1, w1. split; [exact E |].
    apply setDevice_inv in E as (-> & _). split; reflexivity.
Qed.

Lemma C8_witness :
  Forall (fun s : State => m_mode (fst s) = Zip)
    (visited Meta_isValid
       [OpOpen; OpReadScoreFile; OpSetDevice (Some 0); OpSetMode Zip; OpImageFileNames; OpClose]
       (zipReader, zipWorld sample)).
Proof.
  refine (proj1 (proj2 (C8_mode_changes_only_by_setters Meta_isValid
           [OpOpen; OpReadScoreFile; OpSetDevice (Some 0); OpSetMode Zip; OpImageFileNames; OpClose]
           zipReader (zipWorld sample) _ _))).
  - reflexivity.
  - intros H. repeat (destruct H as [H | H]; [discriminate |]). exact H.
Defined.

(** C8 as stated fails: [setMode(Dir)] on a reader in archive mode leaves
    it in directory mode. *)
Lemma C8_counterexample :
  m_mode zipReader = Zip /\
  match run Meta_isValid [OpSetMode Dir] (zipReader, zipWorld sample) with
  | Some (r, _) => m_mode r = Dir
  | None => False
  end.
Proof. vm_compute. split; reflexivity. Qed.

(** ** The snapshot along a run *)

Lemma run_valid (isValid : Meta -> bool) (ops : list Op) (r : MsczReader.t) (w : World) r2 w2 :
  isValid (m_meta r) = true ->
  run isValid ops (r, w) = Some (r2, w2) ->
  m_meta r2 = m_meta r /\ scans (trace w2) = scans (trace w).
Proof.
  revert r w. induction ops as [|op ops IH]; intros r w Hv.
  - cbn. now intros [= <- <-].
  - cbn [run]. destruct (step isValid op (r, w)) as [[r1 w1]|] eqn:E; [| discriminate].
    intros Hrun. apply step_inv in E as (_ & _ & _ & Hs).
    destruct (Hs Hv) as [Hm Hsc].
    rewrite <- Hm in Hv. destruct (IH r1 w1 Hv Hrun) as [Hm' Hsc']. split; congruence.
Qed.

(** C3, amended.  A call of [meta()] on a snapshot that is not valid makes
    one enumeration pass.  Once a call has returned a valid snapshot, no
    later call on the reader, [setDevice] and [setFilePath] included,
    changes the snapshot or enumerates again: every later [meta()] returns
    the same snapshot, so [imageFilePaths] does not grow. *)
Theorem C3_valid_snapshot_is_kept (isValid : Meta -> bool)
    (r : MsczReader.t) (w : World) m r1 w1 :
  meta isValid r w = Some (m, r1, w1) ->
  m_meta r1 = m /\
  (isValid (m_meta r) = false -> scans (trace w1) = S (scans (trace w))) /\
  (isValid m = true ->
   forall ops r2 w2,
     run isValid ops (r1, w1) = Some (r2, w2) ->
     m_meta r2 = m /\
     scans (trace w2) = scans (trace w1) /\
     meta isValid r2 w2 = Some (m, r2, w2)).
Proof.
  intros Hmeta. apply meta_inv in Hmeta as (Hm & _ & _ & _ & Hc).
  split; [exact Hm |]. split.
  - intros Hv. now rewrite Hv in Hc.
  - intros Hv ops r2 w2 Hrun. rewrite <- Hm in Hv.
    destruct (run_valid isValid ops r1 w1 r2 w2 Hv Hrun) as [Hm2 Hsc].
    split; [congruence |]. split; [exact Hsc |].
    rewrite <- Hm, <- Hm2. apply meta_cached. now rewrite Hm2.
Qed.

Lemma C3_witness :
  exists m r1 w1,
    meta Meta_isValid zipReader (zipWorld sample) = Some (m, r1, w1) /\
    imageFilePaths m = ["Pictures/a.png"; "Pictures/b.png"] /\
    forall ops r2 w2,
      run Meta_isValid ops (r1, w1) = Some (r2, w2) ->
      m_meta r2 = m /\ scans (trace w2) = 1.
Proof.
  eexists _, _, _. split; [vm_compute; reflexivity |]. split; [reflexivity |].
  intros ops r2 w2 Hrun.
  edestruct (C3_valid_snapshot_is_kept Meta_isValid zipReader (zipWorld sample))
    as (_ & _ & Hkeep).
  { vm_compute. reflexivity. }
  destruct (Hkeep eq_refl ops r2 w2 Hrun) as (H1 & H2 & _).
  split; [exact H1 | rewrite H2; reflexivity].
Defined.

(** C3 as stated fails: over an archive with nothing to classify the
    snapshot never becomes valid and every [meta()] enumerates again. *)
Lemma C3_counterexample :
  match run Meta_isValid [OpMeta; OpMeta; OpMeta] (zipReader, zipWorld onlyAudio) with
  | Some (r, w) => m_meta r = Meta_default /\ scans (trace w) = 3
  | None => False
  end.
Proof. vm_compute. split; reflexivity. Qed.

(** ** Rebinding the device *)

(** C2, amended.  [setDevice] is defined (the reader does not own a device
    that is gone) and leaves the reader in archive mode, with a warning in
    the log exactly when it was in directory mode, bound to the new
    device, without ownership and without backend handle.  The snapshot is
    not touched: when it was valid the next [meta()] returns it as it is
    and enumerates nothing; when it was not, the next [meta()] makes a
    pass. *)
Theorem C2_setDevice_keeps_snapshot (isValid : Meta -> bool)
    (r : MsczReader.t) (device : option nat) (w : World) :
  ownedDeviceLive r w ->
  exists r' w',
    setDevice r device w = Some (r', w') /\
    m_mode r' = Zip /\
    trace w' = (if Mode_eqb (m_mode r) Dir
                then [LOGW "The mode changed to ZIP"] else []) ++ trace w /\
    m_device r' = device /\ m_selfDeviceOwner r' = false /\ m_reader r' = None /\
    m_meta r' = m_meta r /\
    (isValid (m_meta r) = true -> meta isValid r' w' = Some (m_meta r, r', w')) /\
    (isValid (m_meta r) = false ->
     forall m r2 w2, meta isValid r' w' = Some (m, r2, w2) ->
       scans (trace w2) = S (scans (trace w'))).
Proof.
  intros Hlive. destruct (setDevice_defined r device w Hlive) as (r' & w' & H).
  exists r', w'. split; [exact H |].
  apply setDevice_inv in H as [-> Ht]. cbn.
  repeat split; auto.
  - intros Hv. unfold meta. cbn. now rewrite Hv.
  - intros Hv m r2 w2 Hmeta. apply meta_inv in Hmeta as (_ & _ & _ & _ & Hc).
    cbn in Hc. now rewrite Hv in Hc.
Qed.

Lemma C2_witness :
  exists r' w',
    setDevice (dirReader "/home/u/s") (Some 0) (mixedWorld "/home/u/s" oneScore otherScore)
      = Some (r', w') /\
    m_mode r' = Zip /\ trace w' = [LOGW "The mode changed to ZIP"].
Proof.
  destruct (C2_setDevice_keeps_snapshot Meta_isValid (dirReader "/home/u/s") (Some 0)
              (mixedWorld "/home/u/s" oneScore otherScore))
    as (r' & w' & Hset & Hmode & Htrace & _).
  - intros Ho. discriminate.
  - exists r', w'. split; [exact Hset |]. split; [exact Hmode | exact Htrace].
Defined.

(** C2 as stated fails.  A directory reader over Score.mscx fills its
    snapshot, is rebound to a device whose archive holds Other.mscx, and
    is asked again: the answer is the old snapshot, and the trace still
    has the one pass of the first call. *)
Lemma C2_counterexample :
  match run Meta_isValid [OpMeta; OpSetDevice (Some 0)]
          (dirReader "/home/u/s", mixedWorld "/home/u/s" oneScore otherScore) with
  | Some (r, w) =>
      m_mode r = Zip /\ scans (trace w) = 1 /\
      match meta Meta_isValid r w with
      | Some (m, _, w') => m = mkMeta "/Score.mscx" [] /\ scans (trace w') = 1
      | None => False
      end
  | None => False
  end.
Proof. vm_compute. repeat split; reflexivity. Qed.

(** ** Ownership of the device *)

(** No call makes the reader the owner of its device. *)
Lemma never_owner (isValid : Meta -> bool) (ops : list Op) (r : MsczReader.t) (w : World) r' w' :
  m_selfDeviceOwner r = false ->
  run isValid ops (r, w) = Some (r', w') ->
  m_selfDeviceOwner r' = false.
Proof.
  revert r w. induction ops as [|op ops IH]; intros r w Ho.
  - cbn. now intros [= <- <-].
  - cbn [run]. destruct (step isValid op (r, w)) as [[r1 w1]|] eqn:E; [| discriminate].
    apply step_inv in E as (_ & Ho1 & _). eauto.
Qed.

(** C10. [setDevice(device)] is defined (the reader does not own a device
    that is gone) and after it the reader does not own its device.  Its
    destructor closes the device and releases none: the devices that exist
    after it are those that existed before it, and over a device that
    exists the destructor is defined. *)
Theorem C10_rebound_device_not_owned
    (r : MsczReader.t) (device : option nat) (w : World) :
  ownedDeviceLive r w ->
  exists r' w',
    setDevice r device w = Some (r', w') /\
    m_selfDeviceOwner r' = false /\ m_device r' = device /\
    (forall w'', destroy r' w' = Some w'' ->
       forall k, is_Some (devices w'' !! k) <-> is_Some (devices w' !! k)) /\
    (forall k, device = Some k -> is_Some (devices w' !! k) ->
       exists w'', destroy r' w' = Some w'' /\ is_Some (devices w'' !! k)).
Proof.
  intros Hlive. destruct (setDevice_defined r device w Hlive) as (r' & w' & H).
  exists r', w'. split; [exact H |].
  apply setDevice_inv in H as [-> _]. cbn.
  split; [reflexivity |]. split; [reflexivity |].
  unfold destroy, close, QIODevice_close, deref. cbn. split.
  - intros w''. destruct device as [k0|]; [| discriminate].
    destruct (devices w' !! k0) as [d|] eqn:Hd; [| discriminate].
    intros [= <-] k. cbn. destruct (decide (k0 = k)) as [<- | Hne].
    + rewrite lookup_insert_eq, Hd. split; eauto.
    + now rewrite lookup_insert_ne.
  - intros k -> [d Hd]. rewrite Hd. eexists. split; [reflexivity |].
    cbn. rewrite lookup_insert_eq. eauto.
Qed.

Lemma C10_witness :
  exists r' w',
    setDevice zipReader (Some 0) (zipWorld sample) = Some (r', w') /\
    m_selfDeviceOwner r' = false.
Proof.
  destruct (C10_rebound_device_not_owned zipReader (Some 0) (zipWorld sample))
    as (r' & w' & Hset & Ho & _).
  - intros Ho. discriminate.
  - exists r', w'. split; [exact Hset | exact Ho].
Defined.

Example destroy_after_rebind :
  match run Meta_isValid [OpSetDevice (Some 0)] (zipReader, zipWorld sample) with
  | Some (r', w') =>
      match destroy r' w' with
      | Some w'' => option_map dev_isOpen (devices w'' !! 0) = Some false
      | None => False
      end
  | None => False
  end.
Proof. vm_compute. reflexivity. Qed.

(** ** Reachable readers *)

Lemma create_handleOk (filePath : string) (m : Mode) : handleOk (create filePath m).
Proof. intros zr. discriminate. Qed.

Lemma createOnDevice_handleOk (device : option nat) : handleOk (createOnDevice device).
Proof. intros zr. discriminate. Qed.

(** The handle stays over the reader's device along every run. *)
Lemma run_handleOk (isValid : Meta -> bool) (ops : list Op) (r : MsczReader.t) (w : World) r' w' :
  handleOk r ->
  run isValid ops (r, w) = Some (r', w') ->
  handleOk r'.
Proof.
  revert r w. induction ops as [|op ops IH]; intros r w Hok.
  - cbn. now intros [= <- <-].
  - cbn [run]. destruct (step isValid op (r, w)) as [[r1 w1]|] eqn:E; [| discriminate].
    apply step_inv in E as (_ & _ & Hok1 & _). eauto.
Qed.

(** With the validity test of the spec's data model a snapshot that is not
    valid is the empty one, so a pass that starts from it starts from
    nothing. *)
Lemma Meta_isValid_false (m : Meta) : Meta_isValid m = false -> m = Meta_default.
Proof.
  destruct m as [name imgs]. unfold Meta_isValid. cbn.
  intros H. apply orb_false_elim in H as [H1 H2].
  apply negb_false_iff in H1. apply String.eqb_eq in H1.
  apply negb_false_iff in H2. destruct imgs; [| discriminate].
  now subst.
Qed.

(** In directory mode, below a root without trailing separator, the name
    that the pass resolves begins with the separator: it is never the
    relative path of an entry. *)
Lemma meta_dir_mscx_has_sep (isValid : Meta -> bool) (r : MsczReader.t) (w : World) m r1 w1 :
  m_mode r = Dir ->
  endsWith "/" (rootPath r (fs w)) = false ->
  isValid (m_meta r) = false ->
  List.filter isMscx
    (List.map (mid (String.length (rootPath r (fs w))))
       (Fs.dirIterator (fs w) (rootPath r (fs w)))) <> [] ->
  meta isValid r w = Some (m, r1, w1) ->
  startsWith "/" (mscxFileName m) = true.
Proof.
  intros Hmode Hroot Hv Hcand.
  rewrite (meta_scan isValid r w _ _ _ Hv (fileList_dir r w Hmode)).
  intros [= <- _ _]. rewrite classify_fold_mscx.
  destruct (List.exists_last Hcand) as (earlier & p & Hp).
  rewrite Hp, List.last_last.
  assert (Hin : In p (List.filter isMscx
                        (List.map (mid (String.length (rootPath r (fs w))))
                           (Fs.dirIterator (fs w) (rootPath r (fs w)))))).
  { rewrite Hp. apply List.in_or_app. right. now left. }
  apply List.filter_In in Hin as [Hin _].
  apply List.in_map_iff in Hin as (q & <- & Hq).
  apply mid_below_root; [exact Hroot | now apply dirIterator_below with (fs w)].
Qed.

(** ** Reads by path over the two layouts of one content *)

Lemma eqb_append_l (a x y : string) :
  String.eqb (a +:+ x) (a +:+ y) = String.eqb x y.
Proof.
  induction a as [|c a IH]; [reflexivity |].
  cbn. now rewrite Ascii.eqb_refl.
Qed.

Lemma hasSep_append_sep (a b : string) : hasSep (a +:+ String sep b) = true.
Proof.
  induction a as [|c a IH]; cbn; [reflexivity |].
  rewrite IH. apply orb_true_r.
Qed.

Lemma beforeLastSep_append (a b : string) :
  hasSep b = false -> beforeLastSep (a +:+ String sep b) = a.
Proof.
  intros Hb. induction a as [|c a IH].
  - cbn. now rewrite Hb.
  - cbn [String.append beforeLastSep]. now rewrite hasSep_append_sep, IH.
Qed.

Lemma startsWith_append (p s t : string) :
  startsWith p s = true -> startsWith p (s +:+ t) = true.
Proof.
  intros H. apply startsWith_spec in H as [u ->]. apply startsWith_spec.
  exists (u +:+ t). apply append_assoc.
Qed.

Lemma endsWith_sep_cons (c : ascii) (t : string) :
  t <> "" -> endsWith "/" (String c t) = endsWith "/" t.
Proof.
  intros Ht. destruct t as [|a t]; [now destruct Ht |].
  change (endsWith "/" (String c (String a t)))
    with (String.eqb "/" (String c (String a t)) || endsWith "/" (String a t)).
  cbn [String.eqb]. now destruct (Ascii.eqb _ c).
Qed.

Lemma endsWith_sep_append (a s : string) :
  s <> "" -> endsWith "/" (a +:+ s) = endsWith "/" s.
Proof.
  intros Hs. induction a as [|c a IH]; [reflexivity |].
  cbn [String.append]. rewrite endsWith_sep_cons; [exact IH |].
  destruct a; [exact Hs | discriminate].
Qed.

(** The root of a directory reader bound below an absolute root. *)
Lemma rootPath_dirReader (root : string) (f : Fs.t) :
  startsWith "/" root = true -> endsWith "/" root = false ->
  rootPath (dirReader root) f = root.
Proof.
  intros Habs Hsep. unfold rootPath, dirReader, create, Fs.absolutePath. cbn [m_mode m_filePath].
  unfold Fs.dirPrefix. rewrite Hsep, append_assoc.
  rewrite (startsWith_append _ _ _ Habs).
  change ("/" +:+ "Score.mscx") with (String sep "Score.mscx").
  rewrite beforeLastSep_append by reflexivity.
  destruct root; [discriminate | reflexivity].
Qed.

Lemma collapseSep_cons (c d : ascii) (t : string) :
  collapseSep (String c (String d t))
  = if Ascii.eqb c sep && Ascii.eqb d sep then collapseSep (String d t)
    else String c (collapseSep (String d t)).
Proof. reflexivity. Qed.

(** *** Names without "." and ".." resolve to themselves *)

Lemma append_cons_assoc (cur : string) (c : ascii) (t : string) :
  (cur +:+ String c "") +:+ t = cur +:+ String c t.
Proof. now rewrite append_assoc. Qed.

Lemma hasSep_append (a b : string) : hasSep (a +:+ b) = hasSep a || hasSep b.
Proof.
  induction a as [|c a IH]; [reflexivity |].
  cbn [String.append hasSep]. rewrite IH. now rewrite orb_assoc.
Qed.

Lemma collapseSep_nosep (x : string) : hasSep x = false -> collapseSep x = x.
Proof.
  induction x as [|c x IH]; [reflexivity |].
  cbn [hasSep]. intros H. apply orb_false_elim in H as [Hc Hx].
  destruct x as [|d x]; [reflexivity |].
  rewrite collapseSep_cons, Hc. cbn [andb]. now rewrite IH.
Qed.

Lemma collapseSep_component (cur t : string) :
  hasSep cur = false ->
  collapseSep (cur +:+ String sep t) = cur +:+ collapseSep (String sep t).
Proof.
  induction cur as [|c cur IH]; [reflexivity |].
  cbn [hasSep]. intros H. apply orb_false_elim in H as [Hc Hx].
  destruct cur as [|d cur].
  - cbn [String.append]. rewrite collapseSep_cons, Hc. reflexivity.
  - cbn [String.append] in *. rewrite collapseSep_cons, Hc. cbn [andb].
    now rewrite (IH Hx).
Qed.

Lemma collapseSep_sep_component (cur t : string) :
  hasSep cur = false -> cur <> "" ->
  collapseSep (String sep (cur +:+ String sep t))
  = String sep (cur +:+ collapseSep (String sep t)).
Proof.
  intros Hs Hne. destruct cur as [|d cur]; [now destruct Hne |].
  cbn [String.append]. rewrite collapseSep_cons.
  pose proof Hs as Hs'. cbn [hasSep] in Hs'. apply orb_false_elim in Hs' as [Hd _].
  rewrite Hd, andb_false_r. f_equal.
  exact (collapseSep_component (String d cur) t Hs).
Qed.

Lemma collapseSep_sep_nosep (cur : string) :
  hasSep cur = false -> cur <> "" ->
  collapseSep (String sep cur) = String sep cur.
Proof.
  intros Hs Hne. destruct cur as [|d cur]; [now destruct Hne |].
  rewrite collapseSep_cons.
  pose proof Hs as Hs'. cbn [hasSep] in Hs'. apply orb_false_elim in Hs' as [Hd _].
  rewrite Hd, andb_false_r. f_equal. now apply collapseSep_nosep.
Qed.

Lemma joined_snoc (st : list string) (x : string) :
  Fs.joined (st ++ [x]) = Fs.joined st +:+ String sep x.
Proof.
  induction st as [|n st IH].
  - cbn. now rewrite append_empty_r.
  - change (Fs.joined ((n :: st) ++ [x]))
      with (String sep (n +:+ Fs.joined (st ++ [x]))).
    rewrite IH.
    change (Fs.joined (n :: st)) with (String sep (n +:+ Fs.joined st)).
    cbn [String.append]. now rewrite append_assoc.
Qed.

Lemma enter_name (f : Fs.t) (st : list string) (cur : string) :
  cur <> "" -> isDot cur = false -> Fs.enter f st cur = Some (st ++ [cur]).
Proof.
  intros Hne Hdot. unfold Fs.enter. unfold isDot in Hdot.
  apply orb_false_elim in Hdot as [H1 H2]. rewrite H1, H2.
  destruct (String.eqb cur "") eqn:E; [| reflexivity].
  apply String.eqb_eq in E. now destruct Hne.
Qed.

(** The walk over a name without "." and ".." components. *)
Lemma walk_plain (f : Fs.t) (s cur : string) (st : list string) :
  hasSep cur = false ->
  plainFrom cur s = true ->
  cur +:+ s <> "" ->
  endsWith "/" (cur +:+ s) = false ->
  exists st',
    Fs.walk f st cur s = Some st' /\ st' <> [] /\
    Fs.joined st' = Fs.joined st +:+ collapseSep (String sep (cur +:+ s)).
Proof.
  revert cur st. induction s as [|c t IH]; intros cur st Hs Hplain Hne Hends.
  - rewrite append_empty_r in *. cbn [plainFrom] in Hplain.
    apply negb_true_iff in Hplain.
    cbn [Fs.walk]. rewrite (enter_name f st cur Hne Hplain).
    exists (st ++ [cur]). split; [reflexivity |].
    split; [now destruct st |].
    now rewrite joined_snoc, (collapseSep_sep_nosep cur Hs Hne).
  - cbn [Fs.walk plainFrom] in *. destruct (Ascii.eqb c sep) eqn:Hc.
    + apply Ascii.eqb_eq in Hc. subst c.
      apply andb_true_iff in Hplain as [Hdot Hplain]. apply negb_true_iff in Hdot.
      assert (Ht : t <> "").
      { intros ->. change (String sep "") with "/" in Hends.
        now rewrite (endsWith_append cur "/") in Hends. }
      assert (Hte : endsWith "/" t = false).
      { rewrite (endsWith_sep_append cur (String sep t)) in Hends by discriminate.
        change (String sep t) with ("/" +:+ t) in Hends.
        now rewrite (endsWith_sep_append "/" t Ht) in Hends. }
      destruct (String.eqb cur "") eqn:Hcur.
      * apply String.eqb_eq in Hcur. subst cur.
        unfold Fs.enter. cbn [String.eqb].
        destruct (IH "" st eq_refl Hplain Ht Hte) as (st' & Hw & Hn & Hj).
        exists st'. split; [exact Hw |]. split; [exact Hn |].
        rewrite Hj. cbn [String.append]. now rewrite (collapseSep_cons sep sep).
      * assert (Hcne : cur <> "") by (intros ->; discriminate).
        rewrite (enter_name f st cur Hcne Hdot).
        destruct (IH "" (st ++ [cur]) eq_refl Hplain Ht Hte) as (st' & Hw & Hn & Hj).
        exists st'. split; [exact Hw |]. split; [exact Hn |].
        rewrite Hj, joined_snoc. cbn [String.append].
        rewrite (collapseSep_sep_component cur t Hs Hcne).
        rewrite append_assoc. reflexivity.
    + assert (Hs' : hasSep (cur +:+ String c "") = false).
      { rewrite hasSep_append, Hs. cbn [hasSep]. now rewrite Hc. }
      rewrite <- (append_cons_assoc cur c t) in Hne, Hends.
      destruct (IH (cur +:+ String c "") st Hs' Hplain Hne Hends) as (st' & Hw & Hn & Hj).
      exists st'. split; [exact Hw |]. split; [exact Hn |].
      now rewrite Hj, append_cons_assoc.
Qed.

(** An absolute name without "." and ".." components resolves to itself,
    runs of separators read as one. *)
Lemma resolve_plain (f : Fs.t) (p : string) :
  startsWith "/" p = true -> plain p = true -> endsWith "/" p = false ->
  Fs.resolve f p = Some (collapseSep p).
Proof.
  intros Habs Hplain Hends. unfold Fs.resolve. rewrite Habs.
  assert (Hne : "" +:+ p <> "") by (destruct p; [discriminate | discriminate]).
  destruct (walk_plain f p "" [] eq_refl Hplain Hne Hends) as (st' & -> & Hn & Hj).
  cbn [option_map]. f_equal. unfold Fs.render.
  destruct st' as [|n st']; [now destruct Hn |]. rewrite Hj.
  cbn [Fs.joined List.fold_right String.append].
  destruct p as [|c p]; [discriminate |].
  cbn [startsWith] in Habs. rewrite andb_true_r in Habs.
  apply Ascii.eqb_eq in Habs. subst c.
  change "/"%char with sep. now rewrite (collapseSep_cons sep sep), Ascii.eqb_refl.
Qed.

Lemma plainFrom_append (cur a b : string) :
  plainFrom cur (a +:+ String sep b) = plainFrom cur a && plainFrom "" b.
Proof.
  revert cur. induction a as [|c a IH]; intros cur.
  - cbn [String.append plainFrom]. now rewrite Ascii.eqb_refl.
  - cbn [String.append plainFrom]. destruct (Ascii.eqb c sep).
    + now rewrite IH, andb_assoc.
    + apply IH.
Qed.

Lemma find_dir_file (root name : string) (c : Container) :
  List.find (fun f => String.eqb (Fs.path f) ((root +:+ "/") +:+ name))
    (List.map (fun pb => Fs.mkFile ((root +:+ "/") +:+ fst pb) false true (snd pb)) c)
  = option_map (fun pb => Fs.mkFile ((root +:+ "/") +:+ fst pb) false true (snd pb))
      (List.find (fun pb => String.eqb (fst pb) name) c).
Proof.
  induction c as [|[p b] c IH]; [reflexivity |].
  cbn [List.map List.find Fs.path fst]. rewrite eqb_append_l.
  destruct (String.eqb p name); [reflexivity | exact IH].
Qed.

Lemma find_zip_entry (name : string) (c : Container) :
  MQZipReader.lookupEntry name (MQZipReader.entries (zipImage c))
  = option_map (fun pb => MQZipReader.mkEntry (MQZipReader.mkFileInfo (fst pb) true) (snd pb))
      (List.find (fun pb => String.eqb (fst pb) name) c).
Proof.
  unfold MQZipReader.lookupEntry, zipImage. cbn [MQZipReader.entries].
  induction c as [|[p b] c IH]; [reflexivity |].
  cbn [List.map List.find fst MQZipReader.info MQZipReader.filePath].
  destruct (String.eqb p name); [reflexivity | exact IH].
Qed.

(** A clean name is looked up as it is written. *)
Lemma readAll_clean (f : Fs.t) (p : string) :
  cleanPath p -> endsWith "/" p = false ->
  Fs.readAll f p
  = match List.find (fun g => String.eqb (Fs.path g) p) (Fs.files f) with
    | Some g => if Fs.readable g then Some (Fs.content g) else None
    | None => None
    end.
Proof.
  intros (Habs & Hcol & Hplain) Hends. unfold Fs.readAll.
  now rewrite Hends, (resolve_plain f p Habs Hplain Hends), Hcol.
Qed.

(** For one content laid out as an archive and as a tree below an absolute
    root, a read by a clean, non-empty name returns the same bytes in the
    two modes.  The accessors with a fixed path are of this kind. *)
Lemma fileData_modes_agree (c : Container) (root name : string) :
  startsWith "/" root = true -> endsWith "/" root = false ->
  name <> "" -> endsWith "/" name = false ->
  cleanPath (root +:+ "/" +:+ name) ->
  result (fileData zipReader name (zipWorld c))
  = result (fileData (dirReader root) name (dirWorld root c)).
Proof.
  intros Habs Hsep Hne Hfile Hclean.
  destruct (fileData_zip zipReader name (zipWorld c) 0
              (mkDevice true true (zipImage c))) as (r1 & w1 & Hz).
  - reflexivity.
  - apply createOnDevice_handleOk.
  - unfold deref, zipWorld. cbn [m_device zipReader createOnDevice devices].
    now rewrite lookup_singleton_eq.
  - destruct (fileData_dir (dirReader root) name (dirWorld root c) eq_refl) as (w2 & Hd).
    rewrite Hz, Hd. unfold zipData. cbn [result dev_image].
    rewrite find_zip_entry.
    cbn [MQZipReader.status MQZipReader.Status_eqb zipImage]. f_equal.
    rewrite (rootPath_dirReader root _ Habs Hsep).
    assert (Hns : "/" +:+ name <> "") by discriminate.
    rewrite readAll_clean; [| exact Hclean |].
    2:{ rewrite (endsWith_sep_append root ("/" +:+ name) Hns).
        now rewrite (endsWith_sep_append "/" name Hne). }
    unfold dirWorld. cbn [fs Fs.files].
    unfold Fs.dirPrefix. rewrite Hsep.
    rewrite <- (append_assoc root "/" name), find_dir_file.
    destruct (List.find _ c) as [[p b]|]; reflexivity.
Qed.

Example thumbnail_modes_agree :
  result (readThumbnailFile zipReader (zipWorld sample))
  = result (readThumbnailFile (dirReader "/home/u/s") (dirWorld "/home/u/s" sample)).
Proof.
  apply fileData_modes_agree; try reflexivity; try discriminate.
  repeat split.
Qed.

(** ** Opening and closing *)

Lemma deref_Some (p : option nat) (w : World) k d :
  deref p w = Some (k, d) -> p = Some k /\ devices w !! k = Some d.
Proof.
  unfold deref. destruct p as [j|]; [| discriminate].
  destruct (devices w !! j) eqn:E; [| discriminate].
  intros [= <- <-]. now split.
Qed.

Lemma deref_emit (p : option nat) (e : Event) (w : World) :
  deref p (emit e w) = deref p w.
Proof. reflexivity. Qed.

Lemma deref_setDev (k : nat) (d : QIODevice) (w : World) :
  deref (Some k) (setDev k d w) = Some (k, d).
Proof. unfold deref, setDev. cbn. now rewrite lookup_insert_eq. Qed.

Lemma sameDevices_refl (w : World) : sameDevices w w.
Proof. intros k. reflexivity. Qed.

Lemma sameDevices_trans (w w1 w2 : World) :
  sameDevices w w1 -> sameDevices w1 w2 -> sameDevices w w2.
Proof. intros H1 H2 k. rewrite (H2 k). apply H1. Qed.

Lemma sameDevices_setDev (k : nat) (d d' : QIODevice) (w : World) :
  devices w !! k = Some d -> sameDevices w (setDev k d' w).
Proof.
  intros Hd j. unfold setDev. cbn. destruct (decide (k = j)) as [<- | Hne].
  - rewrite lookup_insert_eq, Hd. split; eauto.
  - now rewrite lookup_insert_ne.
Qed.

Lemma sameDevices_storage (w w1 : World) : sameStorage w w1 -> sameDevices w w1.
Proof. intros (Hd & _) k. now rewrite Hd. Qed.

(** All that [open()] can do. *)
Lemma open_inv (r : MsczReader.t) (w : World) b w1 :
  open r w = Some (b, w1) ->
  isOpened r w1 = Some b /\ fs w1 = fs w /\ sameDevices w w1 /\
  (if b then trace w1 = trace w
   else exists msg, trace w1 = LOGE msg :: trace w) /\
  exists w2, open r w1 = Some (b, w2) /\ (b = true -> w2 = w1).
Proof.
  unfold open, isOpened, QIODevice_isOpen, QIODevice_open.
  destruct (m_mode r) eqn:Hmode.
  - destruct (deref (m_device r) w) as [[k d]|] eqn:Hd; [| discriminate].
    destruct (deref_Some _ _ _ _ Hd) as [Hp Hk].
    destruct (dev_isOpen d) eqn:Ho; cbn [negb].
    + intros [= <- <-]. rewrite ?Hd, ?Ho. cbn [negb].
      split; [reflexivity |]. split; [reflexivity |].
      split; [apply sameDevices_storage; storage |]. split; [reflexivity |].
      exists w. now split.
    + destruct (dev_canOpen d) eqn:Hc; cbn [negb]; intros [= <- <-].
      * rewrite Hp, deref_setDev. cbn [dev_isOpen negb].
        split; [reflexivity |]. split; [reflexivity |].
        split; [apply (sameDevices_setDev k d _ w Hk) |]. split; [reflexivity |].
        eexists. now split.
      * rewrite !deref_emit, Hd, Ho. cbn [negb]. rewrite Hc. cbn [negb].
        split; [reflexivity |]. split; [reflexivity |].
        split; [apply sameDevices_storage; storage |]. split; [eexists; reflexivity |].
        eexists. split; [reflexivity | discriminate].
  - destruct (Fs.exists_ (fs w) (rootPath r (fs w))) eqn:He; cbn [negb];
      intros [= <- <-]; cbn [fs emit]; rewrite He; cbn [negb].
    + split; [reflexivity |]. split; [reflexivity |].
      split; [apply sameDevices_storage; storage |]. split; [reflexivity |].
      eexists. now split.
    + split; [reflexivity |]. split; [reflexivity |].
      split; [apply sameDevices_storage; storage |]. split; [eexists; reflexivity |].
      eexists. split; [reflexivity | discriminate].
Qed.

(** X1. [open()] answers what [isOpened()] says right after it.  It leaves
    the files and the set of devices as they were, logs one error line
    exactly when it answers false, and asked again it answers the same;
    after a success the second call changes nothing. *)
Theorem X1_open_answers_isOpened (r : MsczReader.t) (w : World) b w1 :
  open r w = Some (b, w1) ->
  isOpened r w1 = Some b /\ fs w1 = fs w /\ sameDevices w w1 /\
  (if b then trace w1 = trace w
   else exists msg, trace w1 = LOGE msg :: trace w) /\
  exists w2, open r w1 = Some (b, w2) /\ (b = true -> w2 = w1).
Proof. apply open_inv. Qed.

Lemma X1_witness :
  exists w1, open zipReader (closedWorld true sample) = Some (true, w1)
             /\ isOpened zipReader w1 = Some true.
Proof.
  eexists. split; [vm_compute; reflexivity |].
  eapply (X1_open_answers_isOpened zipReader (closedWorld true sample) true).
  vm_compute. reflexivity.
Defined.

Example open_fails_and_logs :
  match open zipReader (closedWorld false sample) with
  | Some (b, w1) => b = false /\ trace w1 = [LOGE "failed open file: "]
  | None => False
  end.
Proof. vm_compute. split; reflexivity. Qed.

Lemma QIODevice_close_inv (p : option nat) (w w1 : World) :
  QIODevice_close p w = Some w1 ->
  exists k d, p = Some k /\ devices w !! k = Some d /\
              w1 = setDev k (mkDevice false (dev_canOpen d) (dev_image d)) w.
Proof.
  unfold QIODevice_close. destruct (deref p w) as [[k d]|] eqn:Hd; [| discriminate].
  intros [= <-]. apply deref_Some in Hd as [-> Hk]. now exists k, d.
Qed.

Lemma sameImages_refl (w : World) : sameImages w w.
Proof. intros k d Hd. now exists d. Qed.

Lemma sameImages_trans (w w1 w2 : World) :
  sameImages w w1 -> sameImages w1 w2 -> sameImages w w2.
Proof.
  intros H1 H2 k d Hd. destruct (H1 k d Hd) as (d1 & Hd1 & Hi1 & Hc1).
  destruct (H2 k d1 Hd1) as (d2 & Hd2 & Hi2 & Hc2).
  exists d2. repeat split; congruence.
Qed.

Lemma sameImages_close (k : nat) (d : QIODevice) (w : World) :
  devices w !! k = Some d ->
  sameImages w (setDev k (mkDevice false (dev_canOpen d) (dev_image d)) w).
Proof.
  intros Hk j dj Hj. unfold setDev. cbn [devices].
  destruct (decide (k = j)) as [<- | Hne].
  - rewrite lookup_insert_eq. eexists. split; [reflexivity |].
    rewrite Hk in Hj. injection Hj as <-. now split.
  - rewrite lookup_insert_ne by exact Hne. now exists dj.
Qed.

(** All that [close()] can do, and when it is defined. *)
Lemma close_inv (r : MsczReader.t) (w : World) :
  handleOk r ->
  (m_mode r = Zip -> deref (m_device r) w <> None) ->
  exists w1,
    close r w = Some w1 /\
    trace w1 = trace w /\ fs w1 = fs w /\
    sameDevices w w1 /\ sameImages w w1 /\
    (m_mode r = Zip -> isOpened r w1 = Some false) /\
    (m_mode r = Dir -> w1 = w).
Proof.
  intros Hok Hlive. unfold close, isOpened, MQZipReader_close.
  destruct (m_mode r) eqn:Hmode.
  2:{ exists w. split; [reflexivity |]. split; [reflexivity |]. split; [reflexivity |].
      split; [apply sameDevices_refl |]. split; [apply sameImages_refl |].
      split; [discriminate | reflexivity]. }
  destruct (deref (m_device r) w) as [[k d]|] eqn:Hd; [| now destruct Hlive].
  apply deref_Some in Hd as [Hp Hk].
  set (closed := mkDevice false (dev_canOpen d) (dev_image d)).
  assert (Hc1 : QIODevice_close (m_device r) w = Some (setDev k closed w)).
  { unfold QIODevice_close, deref. now rewrite Hp, Hk. }
  assert (Hc2 : QIODevice_close (m_device r) (setDev k closed w)
                = Some (setDev k closed (setDev k closed w))).
  { unfold QIODevice_close. now rewrite Hp, deref_setDev. }
  assert (Hs1 : sameDevices w (setDev k closed w))
    by apply (sameDevices_setDev k d closed w Hk).
  assert (Hi1 : sameImages w (setDev k closed w))
    by apply (sameImages_close k d w Hk).
  assert (Hk1 : devices (setDev k closed w) !! k = Some closed).
  { unfold setDev. cbn. apply lookup_insert_eq. }
  destruct (m_reader r) as [zr|] eqn:Hzr.
  - rewrite (Hok zr Hzr), Hc1, Hc2.
    eexists. split; [reflexivity |]. split; [reflexivity |]. split; [reflexivity |].
    split; [| split; [| split; [| discriminate]]].
    + eapply sameDevices_trans; [exact Hs1 |].
      apply (sameDevices_setDev k closed closed _ Hk1).
    + eapply sameImages_trans; [exact Hi1 |].
      apply (sameImages_close k closed _ Hk1).
    + intros _. unfold QIODevice_isOpen. now rewrite Hp, deref_setDev.
  - rewrite Hc1.
    eexists. split; [reflexivity |]. split; [reflexivity |]. split; [reflexivity |].
    split; [exact Hs1 | split; [exact Hi1 | split; [| discriminate]]].
    intros _. unfold QIODevice_isOpen. now rewrite Hp, deref_setDev.
Qed.

(** X2. On a reader whose handle is over its device, [close()] is defined
    in directory mode, where it does nothing, and in archive mode as soon
    as the device exists; there it leaves the device closed, so that
    [isOpened()] answers false.  It writes no log line, touches no file,
    and deletes no device: every device keeps its archive. *)
Theorem X2_close_leaves_device_closed (r : MsczReader.t) (w : World) :
  handleOk r ->
  (m_mode r = Zip -> deref (m_device r) w <> None) ->
  exists w1,
    close r w = Some w1 /\
    trace w1 = trace w /\ fs w1 = fs w /\
    sameDevices w w1 /\ sameImages w w1 /\
    (m_mode r = Zip -> isOpened r w1 = Some false) /\
    (m_mode r = Dir -> w1 = w).
Proof. apply close_inv. Qed.

Lemma X2_witness :
  exists w1, close zipReader (zipWorld sample) = Some w1
             /\ isOpened zipReader w1 = Some false.
Proof.
  destruct (X2_close_leaves_device_closed zipReader (zipWorld sample))
    as (w1 & Hc & _ & _ & _ & _ & Ho & _).
  - intros zr. discriminate.
  - intros _. vm_compute. discriminate.
  - exists w1. split; [exact Hc | now apply Ho].
Defined.

(** ** The devices along a run *)

Lemma sameImages_setDev (k : nat) (d d' : QIODevice) (w : World) :
  devices w !! k = Some d ->
  dev_image d' = dev_image d -> dev_canOpen d' = dev_canOpen d ->
  sameImages w (setDev k d' w).
Proof.
  intros Hk Hi Hc j dj Hj. unfold setDev. cbn [devices].
  destruct (decide (k = j)) as [<- | Hne].
  - rewrite lookup_insert_eq. exists d'. split; [reflexivity |].
    rewrite Hk in Hj. injection Hj as <-. now split.
  - rewrite lookup_insert_ne by exact Hne. now exists dj.
Qed.

Lemma sameImages_storage (w w1 : World) : sameStorage w w1 -> sameImages w w1.
Proof. intros (Hd & _) k d Hk. exists d. rewrite Hd. now split. Qed.

Lemma QIODevice_close_devices (p : option nat) (w w1 : World) :
  QIODevice_close p w = Some w1 -> sameDevices w w1 /\ sameImages w w1.
Proof.
  intros H. apply QIODevice_close_inv in H as (k & d & _ & Hk & ->). split.
  - apply (sameDevices_setDev k d _ w Hk).
  - apply (sameImages_close k d w Hk).
Qed.

Lemma close_devices (r : MsczReader.t) (w w1 : World) :
  close r w = Some w1 -> sameDevices w w1 /\ sameImages w w1.
Proof.
  unfold close, MQZipReader_close. destruct (m_mode r).
  2:{ intros [= <-]. split; [apply sameDevices_refl | apply sameImages_refl]. }
  destruct (m_reader r) as [zr|].
  - destruct (QIODevice_close (MQZipReader.device zr) w) as [w0|] eqn:E; [| discriminate].
    intros H. apply QIODevice_close_devices in E as [E1 E2].
    apply QIODevice_close_devices in H as [H1 H2]. split.
    + eapply sameDevices_trans; eauto.
    + eapply sameImages_trans; eauto.
  - apply QIODevice_close_devices.
Qed.

Lemma open_devices (r : MsczReader.t) (w : World) b w1 :
  open r w = Some (b, w1) -> sameDevices w w1 /\ sameImages w w1.
Proof.
  intros H. split; [now apply open_inv in H as (_ & _ & H & _) |].
  revert H. unfold open, QIODevice_isOpen, QIODevice_open.
  destruct (m_mode r).
  - destruct (deref (m_device r) w) as [[k d]|] eqn:Hd; [| discriminate].
    apply deref_Some in Hd as [_ Hk].
    destruct (dev_isOpen d); cbn [negb].
    + intros [= <- <-]. apply sameImages_refl.
    + destruct (dev_canOpen d) eqn:Hc; cbn [negb]; intros [= <- <-].
      * now apply (sameImages_setDev k d).
      * apply sameImages_storage. storage.
  - destruct (negb _); intros [= <- <-]; apply sameImages_storage; storage.
Qed.

Lemma setDevice_devices (r : MsczReader.t) (device : option nat) (w : World) r' w' :
  m_selfDeviceOwner r = false ->
  setDevice r device w = Some (r', w') -> sameStorage w w'.
Proof.
  intros Ho. unfold setDevice. rewrite Ho.
  destruct (m_device r); destruct (m_mode r); intros [= <- <-]; storage.
Qed.

Lemma step_devices (isValid : Meta -> bool) (op : Op) (r : MsczReader.t) (w : World) r' w' :
  m_selfDeviceOwner r = false ->
  step isValid op (r, w) = Some (r', w') ->
  sameDevices w w' /\ sameImages w w'.
Proof.
  intros Ho.
  assert (Hsto : sameStorage w w' -> sameDevices w w' /\ sameImages w w').
  { intros H. split; [now apply sameDevices_storage | now apply sameImages_storage]. }
  assert (Hfr : frame isValid r w r' w' -> sameDevices w w' /\ sameImages w w').
  { intros (_ & H & _). now apply Hsto. }
  destruct op; cbn [step].
  - intros [= <- <-]. apply Hsto, sameStorage_refl.
  - destruct (open r w) as [[b w1]|] eqn:E; [| discriminate].
    intros [= <- <-]. now apply open_devices in E.
  - destruct (close r w) as [w1|] eqn:E; [| discriminate].
    intros [= <- <-]. now apply close_devices in E.
  - destruct (isOpened r w); [| discriminate]. intros [= <- <-].
    apply Hsto, sameStorage_refl.
  - intros H. apply Hsto. now apply setDevice_devices in H.
  - intros [= <- <-]. apply Hsto, sameStorage_refl.
  - intros [= <- <-]. apply Hsto, sameStorage_refl.
  - intros [= <- <-]. apply Hsto, sameStorage_refl.
  - intros [= <- <-]. apply Hsto, sameStorage_refl.
  - destruct (meta isValid r w) as [[[m r1] w1]|] eqn:E; [| discriminate].
    intros [= <- <-]. apply Hfr. now apply meta_frame in E.
  - intros H. apply Hfr. now apply (fileData_frame isValid) in H.
  - intros H. apply Hfr. now apply readScoreFile_frame in H.
  - intros H. apply Hfr. now apply (fileData_frame isValid) in H.
  - intros H. apply Hfr. now apply (fileData_frame isValid) in H.
  - intros H. apply Hfr. now apply imageFileNames_frame in H.
  - intros H. apply Hfr. now apply (fileData_frame isValid) in H.
  - intros H. apply Hfr. now apply (fileData_frame isValid) in H.
Qed.

Lemma run_devices (isValid : Meta -> bool) (ops : list Op) (r : MsczReader.t) (w : World) r' w' :
  m_selfDeviceOwner r = false ->
  run isValid ops (r, w) = Some (r', w') ->
  sameDevices w w' /\ sameImages w w' /\ m_selfDeviceOwner r' = false.
Proof.
  revert r w. induction ops as [|op ops IH]; intros r w Ho.
  - cbn. intros [= <- <-].
    split; [apply sameDevices_refl | split; [apply sameImages_refl | exact Ho]].
  - cbn [run]. destruct (step isValid op (r, w)) as [[r1 w1]|] eqn:E; [| discriminate].
    intros Hrun. pose proof (step_devices isValid op r w r1 w1 Ho E) as [Hd Hi].
    apply step_inv in E as (_ & Ho1 & _).
    destruct (IH r1 w1 (Ho1 Ho) Hrun) as (Hd' & Hi' & Ho').
    split; [eapply sameDevices_trans; eauto |].
    split; [eapply sameImages_trans; eauto | exact Ho'].
Qed.

(** X3. A reader never owns its device: both constructors leave the
    ownership flag false and no call sets it.  So along every run, and in
    the destructor after it, no device is deleted and no archive is
    altered: the reader only opens and closes what it was given. *)
Theorem X3_reader_never_deletes_a_device (isValid : Meta -> bool)
    (ops : list Op) (r : MsczReader.t) (w : World) r' w' :
  m_selfDeviceOwner r = false ->
  run isValid ops (r, w) = Some (r', w') ->
  (forall filePath m device,
     m_selfDeviceOwner (create filePath m) = false /\
     m_selfDeviceOwner (createOnDevice device) = false) /\
  m_selfDeviceOwner r' = false /\
  sameDevices w w' /\ sameImages w w' /\
  (forall w'', destroy r' w' = Some w'' -> sameDevices w w'' /\ sameImages w w'').
Proof.
  intros Ho Hrun. split; [now split |].
  destruct (run_devices isValid ops r w r' w' Ho Hrun) as (Hd & Hi & Ho').
  split; [exact Ho' |]. split; [exact Hd |]. split; [exact Hi |].
  intros w''. unfold destroy.
  destruct (close r' w') as [w1|] eqn:E; [| discriminate].
  rewrite Ho'. intros [= <-]. apply close_devices in E as [E1 E2]. split.
  - eapply sameDevices_trans; eauto.
  - eapply sameImages_trans; eauto.
Qed.

Lemma X3_witness :
  exists r' w',
    run Meta_isValid [OpOpen; OpReadScoreFile; OpSetDevice (Some 0); OpClose]
      (zipReader, zipWorld sample) = Some (r', w') /\
    exists w'', destroy r' w' = Some w'' /\ sameDevices (zipWorld sample) w''.
Proof.
  eexists _, _. split; [vm_compute; reflexivity |].
  eexists. split; [vm_compute; reflexivity |].
  eapply (X3_reader_never_deletes_a_device Meta_isValid
            [OpOpen; OpReadScoreFile; OpSetDevice (Some 0); OpClose]
            zipReader (zipWorld sample)).
  - reflexivity.
  - vm_compute. reflexivity.
  - vm_compute. reflexivity.
Defined.

(** ** The shape of a snapshot *)

Lemma classify_metaOk (m : Meta) (p : string) : metaOk m -> metaOk (classify m p).
Proof.
  intros [Hs Hi]. unfold classify.
  destruct (endsWith ".mscx" p) eqn:E.
  - split; [right; exact E | exact Hi].
  - destruct (startsWith "Pictures/" p) eqn:P; [| now split].
    split; [exact Hs |]. cbn [imageFilePaths].
    apply List.Forall_app. split; [exact Hi |].
    constructor; [| constructor]. unfold isPicture. now rewrite E, P.
Qed.

Lemma fold_classify_metaOk (files : list string) (m : Meta) :
  metaOk m -> metaOk (List.fold_left classify files m).
Proof.
  revert m. induction files as [|p files IH]; intros m Hm; [exact Hm |].
  cbn [List.fold_left]. apply IH. now apply classify_metaOk.
Qed.

Lemma meta_metaOk (isValid : Meta -> bool) (r : MsczReader.t) (w : World) m r1 w1 :
  metaOk (m_meta r) -> meta isValid r w = Some (m, r1, w1) ->
  metaOk m /\ m_meta r1 = m.
Proof.
  intros Hok. unfold meta. destruct (isValid (m_meta r)).
  - intros [= <- <- <-]. now split.
  - destruct (fileList r w) as [[[files r0] w0]|] eqn:Hfl; [| discriminate].
    intros [= <- <- <-]. split; [| reflexivity].
    apply fileList_inv in Hfl as ((_ & _ & _ & _ & Hm) & _).
    rewrite Hm. now apply fold_classify_metaOk.
Qed.

Lemma fileData_meta (r : MsczReader.t) (n : string) (w : World) r' w' :
  after (fileData r n w) = Some (r', w') -> m_meta r' = m_meta r.
Proof.
  destruct (fileData r n w) as [[[d r1] w1]|] eqn:E; [| discriminate].
  intros [= <- <-]. now apply fileData_inv in E as ((_ & _ & _ & _ & H) & _).
Qed.

Lemma step_metaOk (isValid : Meta -> bool) (op : Op) (r : MsczReader.t) (w : World) r' w' :
  metaOk (m_meta r) ->
  step isValid op (r, w) = Some (r', w') ->
  metaOk (m_meta r').
Proof.
  intros Hok. destruct op; cbn [step].
  - now intros [= <- <-].
  - destruct (open r w) as [[b w1]|]; [| discriminate]. now intros [= <- <-].
  - destruct (close r w) as [w1|]; [| discriminate]. now intros [= <- <-].
  - destruct (isOpened r w); [| discriminate]. now intros [= <- <-].
  - intros H. apply setDevice_inv in H as [-> _]. exact Hok.
  - now intros [= <- <-].
  - now intros [= <- <-].
  - now intros [= <- <-].
  - now intros [= <- <-].
  - destruct (meta isValid r w) as [[[m r1] w1]|] eqn:E; [| discriminate].
    intros [= <- <-]. apply (meta_metaOk isValid) in E as [E ->]; assumption.
  - intros H. apply fileData_meta in H. now rewrite H.
  - unfold readScoreFile.
    destruct (meta isValid r w) as [[[m r1] w1]|] eqn:E; [| discriminate].
    intros H. apply fileData_meta in H. rewrite H.
    apply (meta_metaOk isValid) in E as [E ->]; assumption.
  - intros H. apply fileData_meta in H. now rewrite H.
  - intros H. apply fileData_meta in H. now rewrite H.
  - unfold imageFileNames.
    destruct (meta isValid r w) as [[[m r1] w1]|] eqn:E; [| discriminate].
    intros [= <- <-]. apply (meta_metaOk isValid) in E as [E ->]; assumption.
  - intros H. apply fileData_meta in H. now rewrite H.
  - intros H. apply fileData_meta in H. now rewrite H.
Qed.

(** X4. The snapshot keeps its shape.  It starts empty, and whatever calls
    follow, its score name is empty or ends in ".mscx" and each of its
    image paths begins with "Pictures/" and does not end in ".mscx": a
    path below Pictures that ends in ".mscx" counts as a score, never as
    an image, and the thumbnail and the audio files are in neither
    field. *)
Theorem X4_snapshot_keeps_its_shape (isValid : Meta -> bool)
    (ops : list Op) (r : MsczReader.t) (w : World) r' w' :
  metaOk (m_meta r) ->
  run isValid ops (r, w) = Some (r', w') ->
  metaOk Meta_default /\
  metaOk (m_meta r') /\
  (forall m r2 w2, meta isValid r' w' = Some (m, r2, w2) ->
     (mscxFileName m = "" \/ endsWith ".mscx" (mscxFileName m) = true) /\
     Forall (fun p => startsWith "Pictures/" p = true /\ endsWith ".mscx" p = false)
       (imageFilePaths m)).
Proof.
  intros Hok Hrun.
  assert (H0 : metaOk Meta_default) by (split; [now left | constructor]).
  split; [exact H0 |].
  assert (Hr : metaOk (m_meta r')).
  { revert r w Hok Hrun. induction ops as [|op ops IH]; intros r w Hok.
    - cbn. now intros [= <- <-].
    - cbn [run]. destruct (step isValid op (r, w)) as [[r1 w1]|] eqn:E; [| discriminate].
      intros Hrun. apply (IH r1 w1); [| exact Hrun].
      now apply (step_metaOk isValid op r w r1 w1). }
  split; [exact Hr |].
  intros m r2 w2 Hm. apply (meta_metaOk isValid) in Hm as [[Hs Hi] _]; [| exact Hr].
  split; [exact Hs |].
  eapply List.Forall_impl; [| exact Hi].
  intros p Hp. unfold isPicture in Hp. apply andb_true_iff in Hp as [Hp1 Hp2].
  split; [exact Hp2 | now apply negb_true_iff in Hp1].
Qed.

Lemma X4_witness :
  match run Meta_isValid [OpImageFileNames; OpSetDevice (Some 0); OpReadScoreFile]
          (zipReader, zipWorld nestedPictures) with
  | Some (r', _) => metaOk (m_meta r')
  | None => False
  end.
Proof.
  destruct (run Meta_isValid [OpImageFileNames; OpSetDevice (Some 0); OpReadScoreFile]
              (zipReader, zipWorld nestedPictures)) as [[r' w']|] eqn:E;
    [| vm_compute in E; discriminate].
  refine (proj1 (proj2 (X4_snapshot_keeps_its_shape Meta_isValid _ zipReader
                          (zipWorld nestedPictures) r' w' _ E))).
  split; [now left | constructor].
Defined.

Example score_below_pictures_is_no_image :
  result (meta Meta_isValid zipReader (zipWorld nestedPictures))
  = Some (mkMeta "Pictures/old.mscx" ["Pictures/a.png"; "Pictures/sub/b.png"]).
Proof. vm_compute. reflexivity. Qed.

(** ** The names of the images *)

Lemma hasSep_afterLastSep (s : string) : hasSep (afterLastSep s) = false.
Proof.
  induction s as [|c t IH]; [reflexivity |].
  cbn [afterLastSep]. destruct (hasSep t) eqn:Ht; [exact IH |].
  destruct (Ascii.eqb c sep) eqn:Hc; [exact Ht |].
  cbn [hasSep]. now rewrite Hc, Ht.
Qed.

Lemma afterLastSep_append (a n : string) :
  hasSep n = false -> afterLastSep (a +:+ String sep n) = n.
Proof.
  intros Hn. induction a as [|c a IH].
  - cbn [String.append afterLastSep]. rewrite Hn. now rewrite Ascii.eqb_refl.
  - cbn [String.append afterLastSep]. now rewrite hasSep_append_sep.
Qed.

(** In archive mode the enumeration is defined as soon as the device
    exists. *)
Lemma fileList_zip_defined (r : MsczReader.t) (w : World) k d :
  m_mode r = Zip -> handleOk r -> deref (m_device r) w = Some (k, d) ->
  exists r1 w1,
    fileList r w
    = Some (List.map MQZipReader.filePath
              (List.filter MQZipReader.isFile
                 (List.map MQZipReader.info (MQZipReader.entries (dev_image d)))),
            r1, w1).
Proof.
  intros Hmode Hok Hd. unfold fileList. rewrite Hmode.
  destruct (reader r) as [zr r0] eqn:Hrd.
  apply reader_inv in Hrd as (_ & _ & Hok'). destruct (Hok' Hok) as [_ Hzd].
  unfold MQZipReader_fileInfoList, MQZipReader_status.
  rewrite Hzd, Hd, deref_emit, Hd. eauto.
Qed.

Lemma imageFileNames_scan (isValid : Meta -> bool)
    (r : MsczReader.t) (w : World) files r1 w1 :
  isValid (m_meta r) = false ->
  imageFilePaths (m_meta r) = [] ->
  fileList r w = Some (files, r1, w1) ->
  imageFileNames isValid r w
  = Some (List.map afterLastSep (List.filter isPicture files),
          with_meta (List.fold_left classify files (m_meta r)) r1, w1).
Proof.
  intros Hv Hempty Hfl. unfold imageFileNames.
  rewrite (meta_scan isValid r w files r1 w1 Hv Hfl).
  now rewrite classify_fold_images, Hempty.
Qed.

(** X5. On a reader whose snapshot is not valid and holds no image yet,
    [imageFileNames()] returns, in the order of the enumeration, the last
    component of each enumerated path that begins with "Pictures/" and
    does not end in ".mscx": as many names as there are such paths, none
    with a separator in it. *)
Theorem X5_imageFileNames_lists_pictures (isValid : Meta -> bool)
    (r : MsczReader.t) (w : World) files r1 w1 :
  isValid (m_meta r) = false ->
  imageFilePaths (m_meta r) = [] ->
  fileList r w = Some (files, r1, w1) ->
  exists names r2,
    imageFileNames isValid r w = Some (names, r2, w1) /\
    names = List.map afterLastSep (List.filter isPicture files) /\
    List.length names = List.length (List.filter isPicture files) /\
    Forall (fun n => hasSep n = false) names.
Proof.
  intros Hv Hempty Hfl.
  rewrite (imageFileNames_scan isValid r w files r1 w1 Hv Hempty Hfl).
  eexists _, _. split; [reflexivity |]. split; [reflexivity |].
  split; [apply List.length_map |].
  apply List.Forall_forall. intros n Hn.
  apply List.in_map_iff in Hn as (p & <- & _). apply hasSep_afterLastSep.
Qed.

Lemma X5_witness :
  result (imageFileNames Meta_isValid zipReader (zipWorld nestedPictures))
  = Some ["a.png"; "b.png"].
Proof.
  edestruct (X5_imageFileNames_lists_pictures Meta_isValid zipReader (zipWorld nestedPictures))
    as (names & r2 & Hn & -> & _).
  - reflexivity.
  - reflexivity.
  - vm_compute. reflexivity.
  - rewrite Hn. vm_compute. reflexivity.
Defined.

Lemma lookupEntry_NoDup (es : list MQZipReader.Entry) (e : MQZipReader.Entry) :
  List.NoDup (List.map entryPath es) -> In e es ->
  MQZipReader.lookupEntry (entryPath e) es = Some e.
Proof.
  unfold MQZipReader.lookupEntry.
  induction es as [|e0 es IH]; intros Hnd Hin; [destruct Hin |].
  cbn [List.map] in Hnd. apply List.NoDup_cons_iff in Hnd as [Hfresh Hnd].
  cbn [List.find]. fold (entryPath e0).
  destruct (String.eqb (entryPath e0) (entryPath e)) eqn:E.
  - apply String.eqb_eq in E. destruct Hin as [-> | Hin]; [reflexivity |].
    destruct Hfresh. rewrite E. now apply List.in_map.
  - destruct Hin as [-> | Hin]; [now rewrite String.eqb_refl in E |].
    now apply IH.
Qed.

(** X6. In archive mode, for a reader that has not scanned yet, over a
    sound archive whose paths are distinct, a file stored directly in the
    Pictures folder whose path does not end in ".mscx" is listed by
    [imageFileNames()] under its name, and [readImageFile] of that name
    returns its bytes.  (A path that ends in ".mscx" is taken for the
    score and is not listed.) *)
Theorem X6_listed_image_reads_back (isValid : Meta -> bool)
    (r : MsczReader.t) (w : World) k d e n :
  m_mode r = Zip -> handleOk r ->
  isValid (m_meta r) = false -> imageFilePaths (m_meta r) = [] ->
  deref (m_device r) w = Some (k, d) ->
  MQZipReader.status (dev_image d) = MQZipReader.NoError ->
  List.NoDup (List.map entryPath (MQZipReader.entries (dev_image d))) ->
  In e (MQZipReader.entries (dev_image d)) ->
  MQZipReader.isFile (MQZipReader.info e) = true ->
  entryPath e = "Pictures/" +:+ n ->
  hasSep n = false -> isMscx (entryPath e) = false ->
  exists names r1 w1,
    imageFileNames isValid r w = Some (names, r1, w1) /\
    In n names /\
    exists r2 w2, readImageFile r1 n w1 = Some (MQZipReader.data e, r2, w2).
Proof.
  intros Hmode Hok Hv Hempty Hd Hst Hnd Hin Hfile Hpath Hn Hnot.
  destruct (fileList_zip_defined r w k d Hmode Hok Hd) as (r1 & w1 & Hfl).
  rewrite (imageFileNames_scan isValid r w _ r1 w1 Hv Hempty Hfl).
  eexists _, _, _. split; [reflexivity |]. split.
  - apply List.in_map_iff. exists (entryPath e). split.
    + rewrite Hpath. change ("Pictures/" +:+ n) with ("Pictures" +:+ String sep n).
      now apply afterLastSep_append.
    + apply List.filter_In. split.
      * apply List.in_map_iff. exists (MQZipReader.info e). split; [reflexivity |].
        apply List.filter_In. split; [now apply List.in_map | exact Hfile].
      * unfold isPicture. unfold isMscx in Hnot. rewrite Hnot, Hpath. cbn [negb andb].
        apply startsWith_spec. now exists n.
  - apply fileList_inv in Hfl as ((Hp1 & Hm1 & Hd1 & Ho1 & Hme1) & Hsto & _ & _ & Hok1).
    unfold readImageFile. rewrite <- Hpath.
    destruct (fileData_zip (with_meta (List.fold_left classify
                 (List.map MQZipReader.filePath
                    (List.filter MQZipReader.isFile
                       (List.map MQZipReader.info (MQZipReader.entries (dev_image d)))))
                 (m_meta r)) r1) (entryPath e) w1 k d) as (r2 & w2 & Hfd).
    + cbn. congruence.
    + intros zr. cbn. intros Hzr. now apply (Hok1 Hok).
    + cbn. rewrite (deref_sameStorage _ w w1 Hsto). congruence.
    + exists r2, w2. rewrite Hfd, Hst. cbn [MQZipReader.Status_eqb].
      unfold zipData. now rewrite (lookupEntry_NoDup _ _ Hnd Hin).
Qed.

Lemma X6_witness :
  exists names r1 w1,
    imageFileNames Meta_isValid zipReader (zipWorld nestedPictures) = Some (names, r1, w1) /\
    In "a.png" names /\
    result (readImageFile r1 "a.png" w1) = Some (bytes "A").
Proof.
  edestruct (X6_listed_image_reads_back Meta_isValid zipReader (zipWorld nestedPictures) 0
               (mkDevice true true (zipImage nestedPictures))
               (MQZipReader.mkEntry (MQZipReader.mkFileInfo "Pictures/a.png" true) (bytes "A"))
               "a.png")
    as (names & r1 & w1 & Hn & Hin & r2 & w2 & Hr).
  - reflexivity.
  - intros zr. discriminate.
  - reflexivity.
  - reflexivity.
  - vm_compute. reflexivity.
  - reflexivity.
  - vm_compute. repeat constructor; cbn; intuition discriminate.
  - now left.
  - reflexivity.
  - reflexivity.
  - reflexivity.
  - reflexivity.
  - exists names, r1, w1. split; [exact Hn |]. split; [exact Hin |].
    rewrite Hr. reflexivity.
Defined.

Example nested_image_does_not_read_back :
  match imageFileNames Meta_isValid zipReader (zipWorld nestedPictures) with
  | Some (names, r1, w1) =>
      In "b.png" names /\ result (readImageFile r1 "b.png" w1) = Some []
  | None => False
  end.
Proof. vm_compute. split; [right; now left | reflexivity]. Qed.

(** ** Reads do not disturb reads *)

(** What a read by path returns, as a function of the mode, the device or
    the root, and the storage. *)
Lemma fileData_result (r : MsczReader.t) (n : string) (w : World) :
  handleOk r ->
  result (fileData r n w)
  = match m_mode r with
    | Zip =>
        match deref (m_device r) w with
        | Some (_, d) =>
            Some (if MQZipReader.Status_eqb (MQZipReader.status (dev_image d))
                       MQZipReader.NoError
                  then zipData d n else [])
        | None => None
        end
    | Dir =>
        Some (match Fs.readAll (fs w) (rootPath r (fs w) +:+ "/" +:+ n) with
              | Some data => data
              | None => []
              end)
    end.
Proof.
  intros Hok. destruct (m_mode r) eqn:Hmode.
  - destruct (deref (m_device r) w) as [[k d]|] eqn:Hd.
    + destruct (fileData_zip r n w k d Hmode Hok Hd) as (r1 & w1 & ->). reflexivity.
    + unfold fileData. rewrite Hmode.
      destruct (reader r) as [zr r0] eqn:Hrd.
      apply reader_inv in Hrd as (_ & _ & Hok'). destruct (Hok' Hok) as [_ Hzd].
      unfold MQZipReader_fileData. now rewrite Hzd, Hd.
  - destruct (fileData_dir r n w Hmode) as (w1 & ->). reflexivity.
Qed.

Lemma fileData_result_same (r r' : MsczReader.t) (w w' : World) (n : string) :
  sameButCache r r' -> handleOk r -> handleOk r' -> sameStorage w w' ->
  result (fileData r' n w') = result (fileData r n w).
Proof.
  intros Hs Hok Hok' Hst.
  rewrite (fileData_result r' n w' Hok'), (fileData_result r n w Hok).
  rewrite (rootPath_same r r' _ Hs), (deref_sameStorage _ w w' Hst).
  destruct Hs as (_ & Hm & Hd & _). destruct Hst as (_ & Hf & _).
  now rewrite Hm, Hd, Hf.
Qed.

Lemma frame_refl (isValid : Meta -> bool) (r : MsczReader.t) (w : World) :
  frame isValid r w r w.
Proof.
  split; [repeat split |]. split; [apply sameStorage_refl |]. split; auto.
Qed.

Lemma step_read_frame (isValid : Meta -> bool) (op : Op) (r : MsczReader.t) (w : World) r' w' :
  isRead op = true ->
  step isValid op (r, w) = Some (r', w') ->
  frame isValid r w r' w'.
Proof.
  destruct op; cbn [isRead step]; try discriminate; intros _.
  - intros [= <- <-]. apply frame_refl.
  - destruct (isOpened r w); [| discriminate]. intros [= <- <-]. apply frame_refl.
  - intros [= <- <-]. apply frame_refl.
  - intros [= <- <-]. apply frame_refl.
  - destruct (meta isValid r w) as [[[m r1] w1]|] eqn:E; [| discriminate].
    intros [= <- <-]. now apply meta_frame in E.
  - apply fileData_frame.
  - apply readScoreFile_frame.
  - apply fileData_frame.
  - apply fileData_frame.
  - apply imageFileNames_frame.
  - apply fileData_frame.
  - apply fileData_frame.
Qed.

Lemma run_read_frame (isValid : Meta -> bool) (ops : list Op) (r : MsczReader.t) (w : World) r' w' :
  forallb isRead ops = true ->
  run isValid ops (r, w) = Some (r', w') ->
  frame isValid r w r' w'.
Proof.
  revert r w. induction ops as [|op ops IH]; intros r w Hall.
  - cbn. intros [= <- <-]. apply frame_refl.
  - cbn [forallb] in Hall. apply andb_true_iff in Hall as [Hop Hall].
    cbn [run]. destruct (step isValid op (r, w)) as [[r1 w1]|] eqn:E; [| discriminate].
    intros Hrun. eapply frame_trans.
    + exact (step_read_frame isValid op r w r1 w1 Hop E).
    + exact (IH r1 w1 Hall Hrun).
Qed.

(** X7. Reading changes nothing that a read depends on.  After any
    sequence of accessor calls ([meta], [fileData], the [read...File]
    functions, [imageFileNames], [isOpened], [rootPath]) the devices and
    the files are as before, the reader has its mode, device and file
    path, and every read by path returns what it would have returned
    before the sequence. *)
Theorem X7_reads_do_not_disturb_reads (isValid : Meta -> bool)
    (ops : list Op) (r : MsczReader.t) (w : World) r' w' :
  handleOk r ->
  forallb isRead ops = true ->
  run isValid ops (r, w) = Some (r', w') ->
  sameStorage w w' /\
  m_mode r' = m_mode r /\ m_device r' = m_device r /\ m_filePath r' = m_filePath r /\
  forall n, result (fileData r' n w') = result (fileData r n w).
Proof.
  intros Hok Hall Hrun.
  destruct (run_read_frame isValid ops r w r' w' Hall Hrun) as (Hs & Hst & Hok' & _).
  split; [exact Hst |].
  pose proof Hs as (Hp & Hm & Hd & _).
  split; [exact Hm |]. split; [exact Hd |]. split; [exact Hp |].
  intros n. apply fileData_result_same; auto.
Qed.

Lemma X7_witness :
  match run Meta_isValid [OpReadScoreFile; OpImageFileNames; OpReadAudioFile; OpMeta]
          (zipReader, zipWorld sample) with
  | Some (r', w') =>
      result (fileData r' "Pictures/a.png" w')
      = result (fileData zipReader "Pictures/a.png" (zipWorld sample))
  | None => False
  end.
Proof.
  destruct (run Meta_isValid [OpReadScoreFile; OpImageFileNames; OpReadAudioFile; OpMeta]
              (zipReader, zipWorld sample)) as [[r' w']|] eqn:E;
    [| vm_compute in E; discriminate].
  refine (proj2 (proj2 (proj2 (proj2
            (X7_reads_do_not_disturb_reads Meta_isValid _ zipReader (zipWorld sample)
               r' w' _ _ E)))) _).
  - intros zr. discriminate.
  - reflexivity.
Defined.

(** ** A backend that reports an error *)

(** X8. In archive mode, when the backend reports a status other than
    [NoError], every read by path returns no bytes, also for a path that
    has an entry, and logs one error line after the extraction.  [meta()]
    logs the error too but goes on: it classifies what the backend
    listed. *)
Theorem X8_backend_error_empties_reads (isValid : Meta -> bool)
    (r : MsczReader.t) (w : World) k d :
  m_mode r = Zip -> handleOk r ->
  deref (m_device r) w = Some (k, d) ->
  MQZipReader.status (dev_image d) <> MQZipReader.NoError ->
  (forall n, exists r1 w1,
     fileData r n w = Some ([], r1, w1) /\
     trace w1 = LOGE ("failed read data, status: "
                      +:+ MQZipReader.Status_text (MQZipReader.status (dev_image d)))
                :: ZipExtract k n :: trace w) /\
  (isValid (m_meta r) = false ->
   exists m r1 w1,
     meta isValid r w = Some (m, r1, w1) /\
     m = List.fold_left classify
           (List.map MQZipReader.filePath
              (List.filter MQZipReader.isFile
                 (List.map MQZipReader.info (MQZipReader.entries (dev_image d)))))
           (m_meta r) /\
     trace w1 = LOGE ("failed read meta, status: "
                      +:+ MQZipReader.Status_text (MQZipReader.status (dev_image d)))
                :: ZipList k :: trace w).
Proof.
  intros Hmode Hok Hd Hst.
  assert (Hneq : MQZipReader.Status_eqb (MQZipReader.status (dev_image d))
                   MQZipReader.NoError = false).
  { destruct (MQZipReader.status (dev_image d)); [now destruct Hst | reflexivity]. }
  split.
  - intros n. unfold fileData. rewrite Hmode.
    destruct (reader r) as [zr r0] eqn:Hrd.
    apply reader_inv in Hrd as (_ & _ & Hok'). destruct (Hok' Hok) as [_ Hzd].
    unfold MQZipReader_fileData, MQZipReader_status.
    rewrite Hzd, Hd, deref_emit, Hd, Hneq. cbn [negb].
    eexists _, _. split; reflexivity.
  - intros Hv. unfold meta. rewrite Hv. unfold fileList. rewrite Hmode.
    destruct (reader r) as [zr r0] eqn:Hrd.
    apply reader_inv in Hrd as (_ & (_ & _ & _ & _ & Hm) & Hok').
    destruct (Hok' Hok) as [_ Hzd].
    unfold MQZipReader_fileInfoList, MQZipReader_status.
    rewrite Hzd, Hd, deref_emit, Hd, Hneq. cbn [negb]. rewrite Hm.
    eexists _, _, _. split; [reflexivity |]. split; reflexivity.
Qed.

Lemma X8_witness :
  result (readScoreFile Meta_isValid zipReader (brokenWorld 3 sample)) = Some []
  /\ result (meta Meta_isValid zipReader (brokenWorld 3 sample))
     = Some (mkMeta "Score.mscx" ["Pictures/a.png"; "Pictures/b.png"]).
Proof.
  destruct (X8_backend_error_empties_reads Meta_isValid zipReader (brokenWorld 3 sample) 0
              (mkDevice true true
                 (MQZipReader.mkImage (MQZipReader.Error 3)
                    (MQZipReader.entries (zipImage sample)))))
    as (_ & Hmeta).
  - reflexivity.
  - intros zr. discriminate.
  - vm_compute. reflexivity.
  - discriminate.
  - destruct (Hmeta eq_refl) as (m & r1 & w1 & Hm & -> & _).
    split; [vm_compute; reflexivity |]. rewrite Hm. vm_compute. reflexivity.
Defined.

(** ** Passes over a snapshot that does not become valid *)

(** The enumeration depends on the mode, the device or the root, and the
    storage only. *)
Lemma fileList_same (r r' : MsczReader.t) (w w' : World) files r1 w1 :
  sameButCache r r' -> handleOk r -> handleOk r' -> sameStorage w w' ->
  fileList r w = Some (files, r1, w1) ->
  exists r2 w2, fileList r' w' = Some (files, r2, w2).
Proof.
  intros Hs Hok Hok' Hst Hfl. pose proof Hs as (_ & Hm & Hd & _).
  destruct (m_mode r) eqn:Hmode.
  - destruct (fileList_zip r w files r1 w1 Hmode Hok Hfl) as (k & d & Hdev & ->).
    apply (fileList_zip_defined r' w' k d); [congruence | exact Hok' |].
    rewrite (deref_sameStorage _ w w' Hst). congruence.
  - rewrite (fileList_dir r w Hmode) in Hfl. injection Hfl as <- _ _.
    rewrite (fileList_dir r' w') by congruence.
    rewrite (rootPath_same r r' _ Hs). destruct Hst as (_ & -> & _). eauto.
Qed.

(** X9. [meta()] does not clear [imageFilePaths] before a pass.  If the
    snapshot that a pass leaves is still not valid, the next call makes
    the pass again over the same enumeration and appends the same picture
    paths once more. *)
Theorem X9_pass_appends_pictures_again (isValid : Meta -> bool)
    (r : MsczReader.t) (w : World) m r1 w1 :
  handleOk r ->
  isValid (m_meta r) = false ->
  meta isValid r w = Some (m, r1, w1) ->
  isValid m = false ->
  exists files r0 m2 r2 w2,
    fileList r w = Some (files, r0, w1) /\
    imageFilePaths m = imageFilePaths (m_meta r) ++ List.filter isPicture files /\
    meta isValid r1 w1 = Some (m2, r2, w2) /\
    imageFilePaths m2
    = (imageFilePaths (m_meta r) ++ List.filter isPicture files)
      ++ List.filter isPicture files.
Proof.
  intros Hok Hv Hmeta Hv2.
  destruct (fileList r w) as [[[files r0] w0]|] eqn:Hfl.
  2:{ unfold meta in Hmeta. now rewrite Hv, Hfl in Hmeta. }
  rewrite (meta_scan isValid r w files r0 w0 Hv Hfl) in Hmeta.
  injection Hmeta as <- <- <-.
  pose proof (fileList_inv r w files r0 w0 Hfl) as (Hsame & Hsto & _ & _ & Hok0).
  set (m := List.fold_left classify files (m_meta r)) in *.
  assert (Hs1 : sameButCache r (with_meta m r0)).
  { apply sameButHandle_cache in Hsame. exact Hsame. }
  assert (Hok1 : handleOk (with_meta m r0)).
  { intros zr. cbn. intros Hzr. now apply (Hok0 Hok). }
  destruct (fileList_same r (with_meta m r0) w w0 files r0 w0 Hs1 Hok Hok1 Hsto Hfl)
    as (r2 & w2 & Hfl2).
  exists files, r0. eexists _, _, _. split; [| split; [| split]].
  - reflexivity.
  - unfold m. apply classify_fold_images.
  - apply (meta_scan isValid _ _ files r2 w2); [exact Hv2 | exact Hfl2].
  - cbn [m_meta with_meta]. rewrite classify_fold_images. unfold m.
    now rewrite classify_fold_images.
Qed.

Lemma X9_witness :
  match run hasScoreName [OpMeta; OpMeta] (zipReader, zipWorld noScore) with
  | Some (r', _) => imageFilePaths (m_meta r') = ["Pictures/p.png"; "Pictures/p.png"]
  | None => False
  end.
Proof.
  destruct (meta hasScoreName zipReader (zipWorld noScore)) as [[[m r1] w1]|] eqn:E;
    [| vm_compute in E; discriminate].
  destruct (X9_pass_appends_pictures_again hasScoreName zipReader (zipWorld noScore) m r1 w1)
    as (files & r0 & m2 & r2 & w2 & _ & _ & _ & _).
  - intros zr. discriminate.
  - reflexivity.
  - exact E.
  - vm_compute in E. injection E as <- _ _. reflexivity.
  - vm_compute. reflexivity.
Defined.

(** ** Rebinding the file path *)

(** X10. [setFilePath] drops the backend handle and keeps the mode, the
    device and the snapshot.  So a valid snapshot is still returned by the
    next [meta()], without a pass, although it was resolved under the old
    path; in archive mode every read by path returns what it returned
    before; in directory mode the root becomes the directory of the new
    path. *)
Theorem X10_setFilePath_keeps_snapshot (isValid : Meta -> bool)
    (r : MsczReader.t) (p : string) (w : World) :
  handleOk r ->
  handleOk (setFilePath r p) /\
  m_reader (setFilePath r p) = None /\
  filePath (setFilePath r p) = p /\
  (isValid (m_meta r) = true ->
   meta isValid (setFilePath r p) w = Some (m_meta r, setFilePath r p, w)) /\
  (m_mode r = Zip ->
   forall n, result (fileData (setFilePath r p) n w) = result (fileData r n w)) /\
  (m_mode r = Dir ->
   rootPath (setFilePath r p) (fs w) = Fs.absolutePath (fs w) p).
Proof.
  intros Hok.
  assert (Hok' : handleOk (setFilePath r p)) by (intros zr; discriminate).
  split; [exact Hok' |]. split; [reflexivity |]. split; [reflexivity |].
  split; [| split].
  - intros Hv. apply (meta_cached isValid (setFilePath r p) w). exact Hv.
  - intros Hmode n.
    rewrite (fileData_result _ n w Hok'), (fileData_result r n w Hok).
    cbn [setFilePath m_mode m_device]. now rewrite Hmode.
  - intros Hmode. unfold rootPath. cbn [setFilePath m_mode m_filePath]. now rewrite Hmode.
Qed.

Lemma X10_witness :
  match run Meta_isValid [OpMeta; OpSetFilePath "/elsewhere/Other.mscx"]
          (dirReader "/home/u/s", dirWorld "/home/u/s" oneScore) with
  | Some (r', w') =>
      rootPath r' (fs w') = "/elsewhere" /\
      result (meta Meta_isValid r' w') = Some (mkMeta "/Score.mscx" [])
  | None => False
  end.
Proof.
  destruct (run Meta_isValid [OpMeta] (dirReader "/home/u/s", dirWorld "/home/u/s" oneScore))
    as [[r1 w1]|] eqn:E; [| vm_compute in E; discriminate].
  destruct (X10_setFilePath_keeps_snapshot Meta_isValid r1 "/elsewhere/Other.mscx" w1)
    as (_ & _ & _ & Hmeta & _ & Hroot).
  - vm_compute in E. injection E as <- <-. intros zr. discriminate.
  - change (run Meta_isValid [OpMeta; OpSetFilePath "/elsewhere/Other.mscx"]
              (dirReader "/home/u/s", dirWorld "/home/u/s" oneScore))
      with (let? s1 := run Meta_isValid [OpMeta]
                         (dirReader "/home/u/s", dirWorld "/home/u/s" oneScore) in
            run Meta_isValid [OpSetFilePath "/elsewhere/Other.mscx"] s1).
    rewrite E. cbn [run step].
    vm_compute in E. injection E as <- <-.
    split; [rewrite Hroot; reflexivity | rewrite Hmeta; reflexivity].
Defined.

(** ** Reading back what the directory enumeration yields *)

(** Two separators in a row are read as one. *)
Lemma collapseSep_double (a b : string) :
  collapseSep (a +:+ String sep (String sep b)) = collapseSep (a +:+ String sep b).
Proof.
  induction a as [|c a IH].
  - cbn [String.append]. rewrite collapseSep_cons, Ascii.eqb_refl. reflexivity.
  - destruct a as [|d a].
    + cbn [String.append] in *. rewrite (collapseSep_cons c sep), IH.
      now rewrite (collapseSep_cons c sep).
    + cbn [String.append] in *. rewrite !(collapseSep_cons c d). now rewrite IH.
Qed.

Lemma find_path_NoDup (fsys : list Fs.File) (f : Fs.File) :
  List.NoDup (List.map Fs.path fsys) -> In f fsys ->
  List.find (fun g => String.eqb (Fs.path g) (Fs.path f)) fsys = Some f.
Proof.
  induction fsys as [|g fsys IH]; intros Hnd Hin; [destruct Hin |].
  cbn [List.map] in Hnd. apply List.NoDup_cons_iff in Hnd as [Hfresh Hnd].
  cbn [List.find]. destruct (String.eqb (Fs.path g) (Fs.path f)) eqn:E.
  - apply String.eqb_eq in E. destruct Hin as [-> | Hin]; [reflexivity |].
    destruct Hfresh. rewrite E. now apply List.in_map.
  - destruct Hin as [-> | Hin]; [now rewrite String.eqb_refl in E |].
    now apply IH.
Qed.

(** X11. In directory mode, below a root without trailing separator, the
    path that the enumeration yields for a listed file begins with the
    separator, and a read of that path still finds the file: the name
    handed to [QFile] has two separators after the root, which the file
    system reads as one.  This is how [readScoreFile()] gets the score in
    directory mode. *)
Theorem X11_dir_enumerated_path_reads_back (r : MsczReader.t) (w : World) (f : Fs.File) :
  m_mode r = Dir ->
  endsWith "/" (rootPath r (fs w)) = false ->
  In f (Fs.files (fs w)) ->
  Fs.listed (rootPath r (fs w)) f = true ->
  List.NoDup (List.map Fs.path (Fs.files (fs w))) ->
  cleanPath (Fs.path f) -> endsWith "/" (Fs.path f) = false ->
  exists files r1 w1,
    fileList r w = Some (files, r1, w1) /\
    In (mid (String.length (rootPath r (fs w))) (Fs.path f)) files /\
    startsWith "/" (mid (String.length (rootPath r (fs w))) (Fs.path f)) = true /\
    result (fileData r (mid (String.length (rootPath r (fs w))) (Fs.path f)) w)
    = Some (Fs.content f).
Proof.
  intros Hmode Hroot Hin Hlisted Hnd Hclean Hfile.
  set (root := rootPath r (fs w)) in *.
  rewrite (fileList_dir r w Hmode). fold root.
  eexists _, _, _. split; [reflexivity |].
  assert (Hbelow : startsWith (Fs.dirPrefix root) (Fs.path f) = true).
  { unfold Fs.listed in Hlisted. now repeat (apply andb_true_iff in Hlisted as [Hlisted _]). }
  assert (Hread : Fs.readable f = true).
  { unfold Fs.listed in Hlisted. apply andb_true_iff in Hlisted as [Hlisted _].
    now apply andb_true_iff in Hlisted as [_ Hlisted]. }
  split; [| split].
  - apply List.in_map. unfold Fs.dirIterator. apply List.in_map.
    apply List.filter_In. now split.
  - now apply mid_below_root.
  - unfold Fs.dirPrefix in Hbelow. rewrite Hroot in Hbelow.
    apply startsWith_spec in Hbelow as [rel Hrel].
    rewrite append_assoc in Hrel.
    assert (Hne : rel <> "").
    { intros ->. rewrite Hrel in Hfile.
      change (root +:+ "/" +:+ "") with (root +:+ "/") in Hfile.
      now rewrite (endsWith_append root "/") in Hfile. }
    rewrite Hrel, mid_append.
    destruct (fileData_dir r ("/" +:+ rel) w Hmode) as (w1 & ->). fold root.
    cbn [result]. f_equal. unfold Fs.readAll.
    change (root +:+ "/" +:+ "/" +:+ rel) with (root +:+ String sep (String sep rel)).
    assert (Hends : endsWith "/" (root +:+ String sep (String sep rel)) = false).
    { rewrite (endsWith_sep_append root (String sep (String sep rel))) by discriminate.
      change (String sep (String sep rel)) with ("//" +:+ rel).
      rewrite (endsWith_sep_append "//" rel Hne).
      rewrite Hrel in Hfile.
      rewrite (endsWith_sep_append root ("/" +:+ rel)) in Hfile by discriminate.
      now rewrite (endsWith_sep_append "/" rel Hne) in Hfile. }
    destruct Hclean as (Habs & Hcol & Hplain).
    assert (Habs2 : startsWith "/" (root +:+ String sep (String sep rel)) = true).
    { rewrite Hrel in Habs. now destruct root. }
    assert (Hplain2 : plain (root +:+ String sep (String sep rel)) = true).
    { rewrite Hrel in Hplain. unfold plain in *.
      change (root +:+ "/" +:+ rel) with (root +:+ String sep rel) in Hplain.
      rewrite plainFrom_append in *.
      change (plainFrom "" (String sep rel)) with (negb (isDot "") && plainFrom "" rel).
      exact Hplain. }
    rewrite Hends, (resolve_plain _ _ Habs2 Hplain2 Hends), collapseSep_double.
    change (root +:+ String sep rel) with (root +:+ "/" +:+ rel).
    rewrite <- Hrel, Hcol, (find_path_NoDup _ f Hnd Hin), Hread. reflexivity.
Qed.

Lemma X11_witness :
  result (fileData (dirReader "/home/u/s") "/Score.mscx" (dirWorld "/home/u/s" oneScore))
  = Some (bytes "<museScore/>").
Proof.
  destruct (X11_dir_enumerated_path_reads_back (dirReader "/home/u/s")
              (dirWorld "/home/u/s" oneScore)
              (Fs.mkFile "/home/u/s/Score.mscx" false true (bytes "<museScore/>")))
    as (files & r1 & w1 & _ & _ & _ & Hread).
  - reflexivity.
  - vm_compute. reflexivity.
  - now left.
  - vm_compute. reflexivity.
  - vm_compute. repeat constructor; cbn; intuition discriminate.
  - repeat split.
  - reflexivity.
  - exact Hread.
Defined.

(** ** The accessors with a fixed path over the two layouts *)

Lemma collapseSep_length (s : string) :
  String.length (collapseSep s) <= String.length s.
Proof.
  induction s as [|c t IH]; [reflexivity |].
  destruct t as [|d t]; [reflexivity |].
  rewrite collapseSep_cons.
  destruct (Ascii.eqb c sep && Ascii.eqb d sep).
  - cbn [String.length] in *. lia.
  - cbn [String.length] in *. lia.
Qed.

Lemma collapseSep_join (a b : string) :
  collapseSep a = a -> endsWith "/" a = false ->
  collapseSep (String sep b) = String sep b ->
  collapseSep (a +:+ String sep b) = a +:+ String sep b.
Proof.
  intros Hclean Hends Hb.
  induction a as [|c a IH]; [exact Hb |].
  destruct a as [|d a].
  - cbn [String.append]. rewrite collapseSep_cons, Hb.
    assert (Hc : Ascii.eqb c sep = false).
    { destruct (Ascii.eqb c sep) eqn:E; [| reflexivity].
      apply Ascii.eqb_eq in E. subst c. cbv in Hends. discriminate. }
    now rewrite Hc.
  - rewrite collapseSep_cons in Hclean.
    cbn [String.append] in *. rewrite collapseSep_cons.
    destruct (Ascii.eqb c sep && Ascii.eqb d sep).
    + pose proof (collapseSep_length (String d a)) as Hlen.
      rewrite Hclean in Hlen. cbn [String.length] in Hlen. lia.
    + injection Hclean as Hclean. rewrite IH; [reflexivity | exact Hclean |].
      now rewrite endsWith_sep_cons in Hends by discriminate.
Qed.

Lemma cleanPath_join (a b : string) :
  cleanPath a -> endsWith "/" a = false -> cleanPath (String sep b) ->
  cleanPath (a +:+ String sep b).
Proof.
  intros (Ha1 & Ha2 & Ha3) Hends (Hb1 & Hb2 & Hb3).
  split; [now apply startsWith_append |].
  split; [now apply collapseSep_join |].
  unfold plain in *. rewrite plainFrom_append, Ha3.
  change (plainFrom "" (String sep b)) with (negb (isDot "") && plainFrom "" b) in Hb3.
  exact Hb3.
Qed.

(** X12. For one content laid out as an archive and as a directory tree
    below a clean absolute root, the accessors with a fixed path return
    the same bytes in the two modes: the thumbnail, the audio, the audio
    settings, and every image read by a clean name.  Clean means: no
    doubled separator and no "." or ".." component, on the root and on
    the name; the name is not empty and does not end in a separator.
    (Through "." and ".." the directory reader reaches files that the
    archive reader, which compares paths as written, does not.) *)
Theorem X12_fixed_path_reads_agree (c : Container) (root : string) :
  startsWith "/" root = true -> endsWith "/" root = false -> cleanPath root ->
  result (readThumbnailFile zipReader (zipWorld c))
    = result (readThumbnailFile (dirReader root) (dirWorld root c)) /\
  result (readAudioFile zipReader (zipWorld c))
    = result (readAudioFile (dirReader root) (dirWorld root c)) /\
  result (readAudioSettingsJsonFile zipReader (zipWorld c))
    = result (readAudioSettingsJsonFile (dirReader root) (dirWorld root c)) /\
  (forall n, n <> "" -> endsWith "/" n = false ->
     cleanPath (String sep ("Pictures/" +:+ n)) ->
     result (readImageFile zipReader n (zipWorld c))
     = result (readImageFile (dirReader root) n (dirWorld root c))).
Proof.
  intros Habs Hsep Hclean.
  assert (H : forall name, name <> "" -> endsWith "/" name = false ->
                cleanPath (String sep name) ->
                result (fileData zipReader name (zipWorld c))
                = result (fileData (dirReader root) name (dirWorld root c))).
  { intros name Hne Hfile Hname.
    apply fileData_modes_agree; try assumption.
    change (root +:+ "/" +:+ name) with (root +:+ String sep name).
    now apply cleanPath_join. }
  split; [apply H; [discriminate | reflexivity | repeat split] |].
  split; [apply H; [discriminate | reflexivity | repeat split] |].
  split; [apply H; [discriminate | reflexivity | repeat split] |].
  intros n Hne Hfile Hn. unfold readImageFile. apply H.
  - discriminate.
  - now rewrite (endsWith_sep_append "Pictures/" n Hne).
  - exact Hn.
Qed.

Lemma X12_witness :
  result (readThumbnailFile (dirReader "/home/u/s") (dirWorld "/home/u/s" sample))
  = Some (bytes "T").
Proof.
  destruct (X12_fixed_path_reads_agree sample "/home/u/s") as (H & _).
  - reflexivity.
  - reflexivity.
  - repeat split.
  - rewrite <- H. vm_compute. reflexivity.
Defined.

(** A name that is not clean separates the two modes. *)
Example dotted_image_name_modes_differ :
  result (readImageFile zipReader "./a.png" (zipWorld sample)) = Some [] /\
  result (readImageFile (dirReader "/home/u/s") "./a.png" (dirWorld "/home/u/s" sample))
    = Some (bytes "A") /\
  result (readImageFile zipReader "../Score.mscx" (zipWorld sample)) = Some [] /\
  result (readImageFile (dirReader "/home/u/s") "../Score.mscx" (dirWorld "/home/u/s" sample))
    = Some (bytes "<museScore/>").
Proof. vm_compute. repeat split; reflexivity. Qed.

(** ** Directory mode needs no device *)

Lemma noZip_refl (w : World) : noZip w w.
Proof. split; [reflexivity |]. split; [reflexivity |]. now exists []. Qed.

Lemma noZip_trans (w w1 w2 : World) : noZip w w1 -> noZip w1 w2 -> noZip w w2.
Proof.
  intros (Hd & Hf & evs & Ht & He) (Hd' & Hf' & evs' & Ht' & He').
  split; [congruence |]. split; [congruence |].
  exists (evs' ++ evs). split; [rewrite Ht', Ht; apply app_assoc |].
  rewrite List.existsb_app, He, He'. reflexivity.
Qed.

Lemma dir_fileData (r : MsczReader.t) (n : string) (w : World) :
  m_mode r = Dir ->
  exists d w1, fileData r n w = Some (d, r, w1) /\ noZip w w1.
Proof.
  intros Hmode. unfold fileData. rewrite Hmode.
  destruct (Fs.readAll _ _); eexists _, _; (split; [reflexivity |]);
    (split; [reflexivity |]); (split; [reflexivity |]).
  - now exists [FileOpen (rootPath r (fs w) +:+ "/" +:+ n)].
  - eexists [_; _]. split; reflexivity.
Qed.

Lemma dir_meta (isValid : Meta -> bool) (r : MsczReader.t) (w : World) :
  m_mode r = Dir ->
  exists m w1, meta isValid r w = Some (m, with_meta m r, w1) /\ noZip w w1.
Proof.
  intros Hmode. unfold meta. destruct (isValid (m_meta r)).
  - exists (m_meta r), w. split; [now destruct r | apply noZip_refl].
  - rewrite (fileList_dir r w Hmode). eexists _, _. split; [reflexivity |].
    split; [reflexivity |]. split; [reflexivity |].
    now exists [DirList (rootPath r (fs w))].
Qed.

Lemma dir_step (isValid : Meta -> bool) (op : Op) (r : MsczReader.t) (w : World) :
  m_mode r = Dir -> isRead op = true ->
  exists r' w',
    step isValid op (r, w) = Some (r', w') /\
    m_mode r' = Dir /\ m_reader r' = m_reader r /\ noZip w w'.
Proof.
  intros Hmode Hop.
  assert (Hfd : forall n, exists r' w',
             after (fileData r n w) = Some (r', w') /\
             m_mode r' = Dir /\ m_reader r' = m_reader r /\ noZip w w').
  { intros n. destruct (dir_fileData r n w Hmode) as (d & w1 & -> & Hq).
    exists r, w1. split; [reflexivity |]. split; [exact Hmode |]. now split. }
  destruct op; cbn [isRead] in Hop; try discriminate; cbn [step].
  - exists r, w. split; [reflexivity |]. split; [exact Hmode |]. split; [reflexivity | apply noZip_refl].
  - unfold isOpened. rewrite Hmode. exists r, w. split; [reflexivity |]. split; [exact Hmode |]. split; [reflexivity | apply noZip_refl].
  - exists r, w. split; [reflexivity |]. split; [exact Hmode |]. split; [reflexivity | apply noZip_refl].
  - exists r, w. split; [reflexivity |]. split; [exact Hmode |]. split; [reflexivity | apply noZip_refl].
  - destruct (dir_meta isValid r w Hmode) as (m & w1 & -> & Hq).
    exists (with_meta m r), w1. split; [reflexivity |]. split; [exact Hmode |]. now split.
  - apply Hfd.
  - unfold readScoreFile.
    destruct (dir_meta isValid r w Hmode) as (m & w1 & -> & Hq).
    destruct (dir_fileData (with_meta m r) (mscxFileName m) w1 Hmode) as (d & w2 & -> & Hq2).
    exists (with_meta m r), w2. split; [reflexivity |]. split; [exact Hmode |].
    split; [reflexivity | eapply noZip_trans; eauto].
  - apply Hfd.
  - apply Hfd.
  - unfold imageFileNames.
    destruct (dir_meta isValid r w Hmode) as (m & w1 & -> & Hq).
    exists (with_meta m r), w1. split; [reflexivity |]. split; [exact Hmode |]. now split.
  - apply Hfd.
  - apply Hfd.
Qed.

(** X13. In directory mode every sequence of accessor calls is defined,
    whatever the device pointer is, null included.  The reader stays in
    directory mode and builds no backend handle; no device and no file
    changes, and the archive backend is never called. *)
Theorem X13_directory_mode_needs_no_device (isValid : Meta -> bool)
    (ops : list Op) (r : MsczReader.t) (w : World) :
  m_mode r = Dir ->
  forallb isRead ops = true ->
  exists r' w',
    run isValid ops (r, w) = Some (r', w') /\
    m_mode r' = Dir /\ m_reader r' = m_reader r /\ noZip w w'.
Proof.
  revert r w. induction ops as [|op ops IH]; intros r w Hmode Hall.
  - exists r, w. split; [reflexivity |]. split; [exact Hmode |].
    split; [reflexivity | apply noZip_refl].
  - cbn [forallb] in Hall. apply andb_true_iff in Hall as [Hop Hall].
    destruct (dir_step isValid op r w Hmode Hop) as (r1 & w1 & Hstep & Hm1 & Hr1 & Hq1).
    destruct (IH r1 w1 Hm1 Hall) as (r2 & w2 & Hrun & Hm2 & Hr2 & Hq2).
    exists r2, w2. cbn [run]. rewrite Hstep.
    split; [exact Hrun |]. split; [exact Hm2 |]. split; [congruence |].
    eapply noZip_trans; eauto.
Qed.

Lemma X13_witness :
  exists r' w',
    run Meta_isValid [OpReadScoreFile; OpImageFileNames; OpReadThumbnailFile]
      (dirReader "/home/u/s", dirWorld "/home/u/s" sample) = Some (r', w') /\
    m_reader r' = None.
Proof.
  destruct (X13_directory_mode_needs_no_device Meta_isValid
              [OpReadScoreFile; OpImageFileNames; OpReadThumbnailFile]
              (dirReader "/home/u/s") (dirWorld "/home/u/s" sample))
    as (r' & w' & Hrun & _ & Hr & _).
  - reflexivity.
  - reflexivity.
  - exists r', w'. split; [exact Hrun | exact Hr].
Defined.

Example archive_mode_without_device_is_undefined :
  readThumbnailFile (create "/home/u/s/Score.mscz" Zip) (zipWorld sample) = None.
Proof. reflexivity. Qed.

(** ** The score of an archive *)

Lemma filter_both {A : Type} (f g : A -> bool) (l : list A) :
  List.filter f (List.filter g l) = List.filter (fun x => g x && f x) l.
Proof.
  induction l as [|x l IH]; [reflexivity |].
  cbn [List.filter]. destruct (g x); cbn [List.filter andb].
  - destruct (f x); now rewrite IH.
  - exact IH.
Qed.

(** X14. In archive mode, over a sound archive whose paths are distinct,
    [readScoreFile()] on a reader without a valid snapshot returns the
    bytes of the last file entry whose path ends in ".mscx", and the
    snapshot names that entry.  An entry that is not a file is passed
    over, whatever its path. *)
Theorem X14_archive_score_is_last_candidate (isValid : Meta -> bool)
    (r : MsczReader.t) (w : World) k d earlier e :
  m_mode r = Zip -> handleOk r ->
  isValid (m_meta r) = false ->
  deref (m_device r) w = Some (k, d) ->
  MQZipReader.status (dev_image d) = MQZipReader.NoError ->
  List.NoDup (List.map entryPath (MQZipReader.entries (dev_image d))) ->
  List.filter (fun e => isMscx (entryPath e) && MQZipReader.isFile (MQZipReader.info e))
    (MQZipReader.entries (dev_image d)) = earlier ++ [e] ->
  exists r3 w3,
    readScoreFile isValid r w = Some (MQZipReader.data e, r3, w3) /\
    mscxFileName (m_meta r3) = entryPath e.
Proof.
  intros Hmode Hok Hv Hd Hst Hnd Hcand.
  destruct (fileList_zip_defined r w k d Hmode Hok Hd) as (r1 & w1 & Hfl).
  pose proof (meta_scan isValid r w _ r1 w1 Hv Hfl) as Hmeta.
  set (files := List.map MQZipReader.filePath
                  (List.filter MQZipReader.isFile
                     (List.map MQZipReader.info (MQZipReader.entries (dev_image d))))) in *.
  assert (Hm : mscxFileName (List.fold_left classify files (m_meta r)) = entryPath e).
  { rewrite classify_fold_mscx. unfold files.
    rewrite filter_file_paths, filter_both, Hcand, List.map_app.
    cbn [List.map]. apply List.last_last. }
  assert (Hin : In e (MQZipReader.entries (dev_image d))).
  { assert (H : In e (earlier ++ [e])) by (apply List.in_or_app; right; now left).
    rewrite <- Hcand in H. now apply List.filter_In in H as [H _]. }
  unfold readScoreFile. rewrite Hmeta, Hm.
  pose proof (fileList_inv r w files r1 w1 Hfl) as (Hsame & Hsto & _ & _ & Hok1).
  destruct Hsame as (Hp1 & Hm1 & Hd1 & Ho1 & Hme1).
  set (m := List.fold_left classify files (m_meta r)) in *.
  destruct (fileData_zip (with_meta m r1) (entryPath e) w1 k d) as (r3 & w3 & Hfd).
  - cbn. congruence.
  - intros zr. cbn. intros Hzr. now apply (Hok1 Hok).
  - cbn. rewrite (deref_sameStorage _ w w1 Hsto). congruence.
  - exists r3, w3. rewrite Hst in Hfd. cbn [MQZipReader.Status_eqb] in Hfd.
    unfold zipData in Hfd. rewrite (lookupEntry_NoDup _ _ Hnd Hin) in Hfd.
    split; [exact Hfd |].
    apply fileData_inv in Hfd as ((_ & _ & _ & _ & H) & _).
    rewrite H. exact Hm.
Qed.

Lemma X14_witness :
  result (readScoreFile Meta_isValid zipReader (zipWorld twoScores)) = Some (bytes "b").
Proof.
  edestruct (X14_archive_score_is_last_candidate Meta_isValid zipReader (zipWorld twoScores) 0
               (mkDevice true true (zipImage twoScores)))
    as (r3 & w3 & Hread & _).
  - reflexivity.
  - intros zr. discriminate.
  - reflexivity.
  - vm_compute. reflexivity.
  - reflexivity.
  - vm_compute. repeat constructor; cbn; intuition discriminate.
  - instantiate (1 := MQZipReader.mkEntry (MQZipReader.mkFileInfo "B.mscx" true) (bytes "b")).
    instantiate (1 := [MQZipReader.mkEntry (MQZipReader.mkFileInfo "A.mscx" true) (bytes "a")]).
    vm_compute. reflexivity.
  - rewrite Hread. reflexivity.
Defined.
